(** * AT Protocol OAuth demo application: persistence and request handlers

    A shallow embedding of [src/auth.ts], [src/db.ts] and the authentication
    routes of [src/index.ts], with the properties the specification states
    about them.

    - The SQLite database of [db.ts] is a record of two tables; a table is
      the list of its rows, in insertion order, so that the primary-key
      constraint is an invariant to be proved and not a property of the
      representation.
    - [async] functions are state-passing functions that either return or
      throw; effects already performed survive a throw, as in JavaScript.
    - What the application imports from npm packages ([JSON], the OAuth
      client, iron-session, [URLSearchParams]) is a parameter. *)

From Stdlib Require Import Ascii String.
From stdpp Require Import base option list strings gmap pretty.

Set Default Proof Using "Type".

(** ** Thrown values and asynchronous computations *)

(** A JavaScript [throw] carries any value; the handlers only distinguish
    instances of [Error] (which have a [message]) from everything else. *)
Inductive Thrown : Type :=
  | ErrorInstance (name message : string)
  | NonError (shown : string).

Inductive Outcome (A : Type) : Type :=
  | Returns (a : A)
  | Throws (e : Thrown).
Arguments Returns {A} a.
Arguments Throws {A} e.

(** [Async S A]: an [async] function over the mutable state [S]. *)
Definition Async (S A : Type) : Type := S → Outcome A * S.

Definition throw {S A} (e : Thrown) : Async S A := λ s, (Throws e, s).

#[export] Instance async_ret {S} : MRet (Async S) := λ A a s, (Returns a, s).
#[export] Instance async_bind {S} : MBind (Async S) := λ A B f m s,
  match m s with
  | (Returns a, s') => f a s'
  | (Throws e, s') => (Throws e, s')
  end.

(** [try { m } catch (e) { h e }] *)
Definition try_catch {S A} (m : Async S A) (h : Thrown → Async S A) : Async S A :=
  λ s, match m s with
       | (Returns a, s') => (Returns a, s')
       | (Throws e, s') => h e s'
       end.
Definition modify {S} (f : S → S) : Async S unit := λ s, (Returns (), f s).
Definition gets {S A} (f : S → A) : Async S A := λ s, (Returns (f s), s).

(** Running a computation for its result, or for its final state. *)
Definition eval {S A} (m : Async S A) (s : S) : Outcome A := fst (m s).
Definition exec {S A} (m : Async S A) (s : S) : S := snd (m s).

Definition is_returns {A} (o : Outcome A) : bool :=
  match o with Returns _ => true | Throws _ => false end.

(** ** db.ts: the schema *)

(** Both tables of [DatabaseSchema] have a [key] column and one payload
    column ([state] in [auth_state], [session] in [auth_session]). *)
Record Row : Type := { key : string; payload : string }.

Abbreviation Table := (list Row).

Record Database : Type := { auth_state : Table; auth_session : Table }.

(** Migration "001" creates both tables, empty. *)
Definition migrateToLatest : Database :=
  {| auth_state := []; auth_session := [] |}.

(** [key] is declared [primaryKey()]: no two rows of a table share a key. *)
Definition primary_key (t : Table) : Prop := NoDup (key <$> t).

Definition db_ok (db : Database) : Prop :=
  primary_key (auth_state db) ∧ primary_key (auth_session db).

(** ** The three statements the stores issue *)

(** [selectFrom(t).selectAll().where("key", "=", k).executeTakeFirst()] *)
Definition selectTakeFirst (k : string) (t : Table) : option Row :=
  head (filter (λ r, key r = k) t).

(** [insertInto(t).values({key, payload}).onConflict(oc => oc.doUpdateSet({payload}))]:
    the insertion conflicts when a row already has the key; the conflicting
    row then gets the new payload, every other row is untouched. *)
Definition doUpdateSet (k p : string) (r : Row) : Row :=
  if decide (key r = k) then {| key := key r; payload := p |} else r.

Definition insertOnConflictUpdate (k p : string) (t : Table) : Table :=
  match selectTakeFirst k t with
  | Some _ => doUpdateSet k p <$> t
  | None => t ++ [{| key := k; payload := p |}]
  end.

(** [deleteFrom(t).where("key", "=", k)] *)
Definition deleteWhere (k : string) (t : Table) : Table :=
  filter (λ r, key r ≠ k) t.

(** Number of rows of [t] whose key is [k]. *)
Definition rows_for (k : string) (t : Table) : nat :=
  length (filter (λ r, key r = k) t).

(** ** auth.ts: the stores *)

(** [JSON.stringify] and [JSON.parse] on the values the OAuth client saves.
    [JSON_parse] is [None] where [JSON.parse] throws a [SyntaxError]; the
    message of that error depends on the text and is [JSON_parse_message]
    of it. *)
Class JSON : Type := {
  JsValue : Type;
  JSON_stringify : JsValue → string;
  JSON_parse : string → option JsValue;
  JSON_parse_message : string → string
}.

(** The saved values are plain data: parsing what was printed gives the
    value back. *)
Class JSONRoundTrip `{JSON} : Prop :=
  json_round_trip : ∀ v, JSON_parse (JSON_stringify v) = Some v.

Definition SyntaxError (message : string) : Thrown :=
  ErrorInstance "SyntaxError" message.

(** The interface [SimpleStore<string, V>] that [NodeSavedStateStore] and
    [NodeSavedSessionStore] instantiate. *)
Record SimpleStore `{JSON} : Type := {
  get : string → Async Database (option JsValue);
  set : string → JsValue → Async Database unit;
  del : string → Async Database unit
}.

Section Stores.
Context `{JSON}.

Definition parse_row (r : option Row) : Async Database (option JsValue) :=
  match r with
  | None => mret None
  | Some row =>
      match JSON_parse (payload row) with
      | Some v => mret (Some v)
      | None => throw (SyntaxError (JSON_parse_message (payload row)))
      end
  end.

Definition StateStore : SimpleStore := {|
  get k :=
    result ← gets (λ db, selectTakeFirst k (auth_state db));
    parse_row result;
  set k val :=
    let state := JSON_stringify val in
    modify (λ db, {| auth_state := insertOnConflictUpdate k state (auth_state db);
                     auth_session := auth_session db |});
  del k :=
    modify (λ db, {| auth_state := deleteWhere k (auth_state db);
                     auth_session := auth_session db |})
|}.

Definition SessionStore : SimpleStore := {|
  get k :=
    result ← gets (λ db, selectTakeFirst k (auth_session db));
    parse_row result;
  set k val :=
    let session := JSON_stringify val in
    modify (λ db, {| auth_state := auth_state db;
                     auth_session := insertOnConflictUpdate k session (auth_session db) |});
  del k :=
    modify (λ db, {| auth_state := auth_state db;
                     auth_session := deleteWhere k (auth_session db) |})
|}.
End Stores.


(** ** index.ts: configuration *)

Record ProcessEnv : Type := { PORT : option string; COOKIE_SECRET : option string }.

(** JavaScript truthiness of a possibly undefined string: [undefined] and
    the empty string are falsy. *)
Definition truthy_string (s : option string) : bool :=
  match s with
  | None => false
  | Some EmptyString => false
  | Some (String _ _) => true
  end.

(** [a || b] on a possibly undefined string [a]. *)
Definition or_default (a : option string) (b : string) : string :=
  match a with
  | Some (String c s) => String c s
  | _ => b
  end.

Definition development_secret : string := "development-secret-key-min-32-chars!!".

(** [const cookieSecret = process.env.COOKIE_SECRET || "development-..."] *)
Definition cookieSecret (env : ProcessEnv) : string :=
  or_default (COOKIE_SECRET env) development_secret.

(** The length the README asks of [COOKIE_SECRET]. *)
Definition min_secret_length : nat := 32.

(** ** index.ts: requests, responses, sessions *)

(** What reading a field of a body parsed by
    [express.urlencoded({ extended: true })] gives: [undefined] when the
    field (or the body) is missing, else a string, an array ([a[]=..]) or a
    nested object ([a[b]=..]). *)
#[warnings="-register-all"]
Inductive FormValue : Type :=
  | FUndefined
  | FString (s : string)
  | FArray (items : list FormValue)
  | FObject (fields : list (string * FormValue)).

Record Request : Type := {
  body : option (list (string * FormValue));
  originalUrl : string;
  cookie_header : option string
}.

(** [type Session = { did?: string }] *)
Record Session : Type := { did : option string }.

(** What a handler leaves in the [Set-Cookie] header: [session.save()]
    seals the session data, [session.destroy()] expires the cookie. *)
Inductive SetCookie : Type :=
  | Sealed (data : Session)
  | Expired.

Record Response : Type := {
  statusCode : nat;
  sent : option string;
  location : option string;
  set_cookie : option SetCookie
}.

Definition fresh_response : Response :=
  {| statusCode := 200; sent := None; location := None; set_cookie := None |}.

(** The session object the OAuth client hands back; the routes read only
    its [did]. *)
Module OAuthSession.
Record t : Type := { did : string }.
End OAuthSession.

(** [new Agent(oauthSession)] *)
Inductive Agent : Type := NewAgent (oauthSession : OAuthSession.t).

Definition URLSearchParams : Type := list (string * string).

(** The methods of [NodeOAuthClient] the routes call.  The client was built
    over the two stores, so its methods act on the database. *)
Class NodeOAuthClient : Type := {
  authorize : FormValue → Async Database string;
  callback : URLSearchParams → Async Database OAuthSession.t;
  restore : string → Async Database (option OAuthSession.t)
}.

(** iron-session's [getIronSession(req, res, {cookieName, password})] and
    the [URLSearchParams] constructor. *)
Class Platform : Type := {
  getIronSession : Request → string → string → Outcome Session;
  newURLSearchParams : option string → URLSearchParams
}.

Inductive ClientCall : Type :=
  | CallAuthorize (handle : FormValue)
  | CallCallback (params : URLSearchParams)
  | CallRestore (sub : string).

Inductive ConsoleArg : Type :=
  | ArgString (s : string)
  | ArgThrown (e : Thrown).

(** The state a route handler runs in: the database, the response being
    built, the calls made to the OAuth client so far, and the console. *)
Record World : Type := {
  db : Database;
  res : Response;
  calls : list ClientCall;
  console : list (string * ConsoleArg)
}.

Definition with_db (f : Database → Database) (w : World) : World :=
  {| db := f (db w); res := res w; calls := calls w; console := console w |}.
Definition with_res (f : Response → Response) (w : World) : World :=
  {| db := db w; res := f (res w); calls := calls w; console := console w |}.
Definition with_call (c : ClientCall) (w : World) : World :=
  {| db := db w; res := res w; calls := calls w ++ [c]; console := console w |}.
Definition with_console (l : string) (a : ConsoleArg) (w : World) : World :=
  {| db := db w; res := res w; calls := calls w; console := console w ++ [(l, a)] |}.

(** A database computation run inside a handler. *)
Definition on_db {A} (m : Async Database A) : Async World A :=
  λ w, let '(o, d) := m (db w) in (o, with_db (λ _, d) w).

(** A library call that touches no state of ours. *)
Definition await {S A} (o : Outcome A) : Async S A := λ s, (o, s).

(** [res.status(n)], [res.send(s)], [res.redirect(u)] *)
Definition status (n : nat) : Async World unit :=
  modify (with_res (λ r, {| statusCode := n; sent := sent r;
                            location := location r; set_cookie := set_cookie r |})).
Definition send (s : string) : Async World unit :=
  modify (with_res (λ r, {| statusCode := statusCode r; sent := Some s;
                            location := location r; set_cookie := set_cookie r |})).
Definition redirect (u : string) : Async World unit :=
  modify (with_res (λ r, {| statusCode := 302; sent := sent r;
                            location := Some u; set_cookie := set_cookie r |})).

(** [session.save()] and [session.destroy()] *)
Definition session_save (s : Session) : Async World unit :=
  modify (with_res (λ r, {| statusCode := statusCode r; sent := sent r;
                            location := location r; set_cookie := Some (Sealed s) |})).
Definition session_destroy : Async World unit :=
  modify (with_res (λ r, {| statusCode := statusCode r; sent := sent r;
                            location := location r; set_cookie := Some Expired |})).

Definition console_error (l : string) (a : ConsoleArg) : Async World unit :=
  modify (with_console l a).

(** [s.split(sep)] for a one-character separator. *)
Fixpoint split (sep : ascii) (s : string) : list string :=
  match s with
  | EmptyString => [EmptyString]
  | String c rest =>
      if decide (c = sep) then EmptyString :: split sep rest
      else match split sep rest with
           | piece :: pieces => String c piece :: pieces
           | [] => [String c EmptyString]
           end
  end.

(** [params.get(name)] and the property lookup [body.name]. *)
Fixpoint assoc {V} (name : string) (l : list (string * V)) : option V :=
  match l with
  | [] => None
  | (n, v) :: rest => if decide (n = name) then Some v else assoc name rest
  end.

(** [req.body?.name] *)
Definition body_field (name : string) (req : Request) : FormValue :=
  match body req with
  | None => FUndefined
  | Some fields => default FUndefined (assoc name fields)
  end.

(** Truthiness of a field: arrays and objects are truthy, [undefined] and
    the empty string are not. *)
Definition truthy (v : FormValue) : bool :=
  match v with
  | FUndefined => false
  | FString s => truthy_string (Some s)
  | FArray _ => true
  | FObject _ => true
  end.

Definition dquote : string := String (ascii_of_nat 34) EmptyString.

Definition login_failed_page (message : string) : string :=
  "<h1>Login failed</h1><p>" +:+ message +:+ "</p><a href=" +:+ dquote
  +:+ "/login" +:+ dquote +:+ ">Try again</a>".

Definition callback_failed_page : string :=
  "<h1>Login failed</h1><a href=" +:+ dquote +:+ "/login" +:+ dquote
  +:+ ">Try again</a>".

Section Routes.
Context {client : NodeOAuthClient} {platform : Platform}.
Variable env : ProcessEnv.

(** Calls to the client, each recorded in [calls]. *)
Definition oauthClient_authorize (handle : FormValue) : Async World string :=
  modify (with_call (CallAuthorize handle));; on_db (authorize handle).
Definition oauthClient_callback (params : URLSearchParams) : Async World OAuthSession.t :=
  modify (with_call (CallCallback params));; on_db (callback params).
Definition oauthClient_restore (sub : string) : Async World (option OAuthSession.t) :=
  modify (with_call (CallRestore sub));; on_db (restore sub).

Definition getSession (req : Request) : Async World Session :=
  await (getIronSession req "sid" (cookieSecret env)).

Definition getSessionAgent (req : Request) : Async World (option Agent) :=
  session ← getSession req;
  match did session with
  | Some (String c s) =>
      try_catch
        (oauthSession ← oauthClient_restore (String c s);
         mret (NewAgent <$> oauthSession))
        (λ _, session_destroy;; mret None)
  | _ => mret None
  end.

(** [app.post("/login", ...)] *)
Definition post_login (req : Request) : Async World unit :=
  let handle := body_field "handle" req in
  if negb (truthy handle) then
    status 400;; send "Handle is required"
  else
    try_catch
      (url ← oauthClient_authorize handle;
       redirect url)
      (λ err,
         let message := match err with
                        | ErrorInstance _ m => m
                        | NonError _ => "Unknown error"
                        end in
         console_error "OAuth authorize failed:" (ArgString message);;
         status 500;; send (login_failed_page message)).

(** [app.get("/oauth/callback", ...)] *)
Definition get_oauth_callback (req : Request) : Async World unit :=
  try_catch
    (let params := newURLSearchParams (split "?" (originalUrl req) !! 1) in
     oauthSession ← oauthClient_callback params;
     session ← getSession req;
     let session := {| did := Some (OAuthSession.did oauthSession) |} in
     session_save session;;
     redirect "/")
    (λ err,
       console_error "OAuth callback failed:" (ArgThrown err);;
       status 500;; send callback_failed_page).

(** [app.post("/logout", ...)] *)
Definition post_logout (req : Request) : Async World unit :=
  session ← getSession req;
  session_destroy;;
  redirect "/".

End Routes.

(** A request arrives: the handler starts from a fresh response. *)
Definition arrive (d : Database) : World :=
  {| db := d; res := fresh_response; calls := []; console := [] |}.

(** ** The flow coordinator behind the client *)

(** The provider-facing part of the coordinator: it resolves a handle to a
    fresh flow identifier, a flow context and a redirect URL; it checks a
    callback against the stored flow context and exchanges the code for a
    subject and a credential; it validates or refreshes a stored
    credential. *)
Class IdentityClient `{JSON} : Type := {
  resolve : FormValue → Outcome (string * JsValue * string);
  exchange : URLSearchParams → JsValue → Outcome (string * JsValue);
  refresh : string → JsValue → Outcome JsValue
}.

Definition UnknownOrConsumedFlow : Thrown :=
  ErrorInstance "UnknownOrConsumedFlow" "Unknown authorization session".
Definition CallbackValidationError : Thrown :=
  ErrorInstance "CallbackValidationError" "Invalid callback parameters".
Definition InfrastructureError : Thrown :=
  ErrorInstance "InfrastructureError" "storage unreachable".

Section Coordinator.
Context `{JSON} {identity : IdentityClient}.
Variables stateStore sessionStore : SimpleStore.

(** Modelled from the spec: [NodeOAuthClient.authorize], whose code (the
    package [@atproto/oauth-client-node]) is not among the sources.  "The
    IdentityClient resolves the handle and constructs a redirect URL; the
    flow context is persisted into the AuthStateStore keyed by a freshly
    generated flow identifier." *)
Definition coordinator_authorize (handle : FormValue) : Async Database string :=
  '(flow, context, url) ← await (resolve handle);
  set stateStore flow context;;
  mret url.

(** Modelled from the spec: [NodeOAuthClient.callback], whose code is not
    among the sources.  "Extracts the flow identifier from the query
    parameters, looks up and deletes the matching FlowStateRecord, validates
    the provider's response against the stored flow context, exchanges the
    authorization code for a renewable credential, and upserts a
    SessionCredentialRecord for the resulting subject identifier."  A flow
    identifier with no record fails with [UnknownOrConsumedFlow]. *)
Definition completeCallback (params : URLSearchParams)
    : Async Database (string * JsValue) :=
  match assoc "state" params with
  | None => throw CallbackValidationError
  | Some flow =>
      record ← get stateStore flow;
      match record with
      | None => throw UnknownOrConsumedFlow
      | Some context =>
          del stateStore flow;;
          '(sub, credential) ← await (exchange params context);
          set sessionStore sub credential;;
          mret (sub, credential)
      end
  end.

(** Modelled from the spec: [NodeOAuthClient.restore], whose code is not
    among the sources.  "Looks up the SessionCredentialRecord; if present,
    delegates to the IdentityClient to validate or refresh the credential
    (may rewrite the record if refreshed); returns absent if no record
    exists." *)
Definition coordinator_restore (sub : string) : Async Database (option JsValue) :=
  record ← get sessionStore sub;
  match record with
  | None => mret None
  | Some credential =>
      renewed ← await (refresh sub credential);
      set sessionStore sub renewed;;
      mret (Some renewed)
  end.

(** The coordinator as the client the routes use. *)
Definition coordinator : NodeOAuthClient := {|
  authorize := coordinator_authorize;
  callback params :=
    '(sub, _) ← completeCallback params;
    mret {| OAuthSession.did := sub |};
  restore sub :=
    credential ← coordinator_restore sub;
    mret ((λ _, {| OAuthSession.did := sub |}) <$> credential)
|}.

End Coordinator.

(** ** Concrete instances, for running the model *)

(** The JSON literals: the smallest set of values [JSON.parse] and
    [JSON.stringify] are inverse on. *)
Inductive Literal : Type := JNull | JTrue | JFalse.

Definition literal_stringify (v : Literal) : string :=
  match v with JNull => "null" | JTrue => "true" | JFalse => "false" end.

Definition literal_parse (s : string) : option Literal :=
  if decide (s = "null") then Some JNull
  else if decide (s = "true") then Some JTrue
  else if decide (s = "false") then Some JFalse
  else None.

Definition literal_json : JSON :=
  {| JsValue := Literal; JSON_stringify := literal_stringify; JSON_parse := literal_parse;
     JSON_parse_message text := "Unexpected token in " +:+ text |}.

(** Query strings without percent-encoding: [a=1&b=2]. *)
Definition parse_pair (piece : string) : string * string :=
  match split "=" piece with
  | [name] => (name, EmptyString)
  | name :: value :: _ => (name, value)
  | [] => (EmptyString, EmptyString)
  end.

Definition parse_query (query : option string) : URLSearchParams :=
  match query with
  | None => []
  | Some EmptyString => []
  | Some q => parse_pair <$> split "&" q
  end.

(** A cookie jar that stores the subject in the clear, whatever the
    password. *)
Definition plain_platform : Platform := {|
  getIronSession req _ _ := Returns {| did := cookie_header req |};
  newURLSearchParams := parse_query
|}.

(** An identity provider that accepts every string handle and every
    callback carrying a [code]. *)
Definition demo_resolve (handle : FormValue) : Outcome (string * Literal * string) :=
  match handle with
  | FString h => Returns ("flow-1", JTrue, "https://pds.example/authorize?state=flow-1")
  | _ => Throws (ErrorInstance "TypeError" "Invalid handle")
  end.

Definition demo_exchange (params : URLSearchParams) (context : Literal)
    : Outcome (string * Literal) :=
  match assoc "code" params with
  | Some _ => Returns ("did:plc:abc123", JFalse)
  | None => Throws CallbackValidationError
  end.

Definition demo_identity : @IdentityClient literal_json :=
  @Build_IdentityClient literal_json
    demo_resolve demo_exchange (λ _ credential, Returns credential).

Definition demo_client : NodeOAuthClient :=
  @coordinator literal_json demo_identity
    (@StateStore literal_json) (@SessionStore literal_json).

(** A client none of whose calls gets through to its storage. *)
Definition unreachable_client : NodeOAuthClient := {|
  authorize _ := throw InfrastructureError;
  callback _ := throw InfrastructureError;
  restore _ := throw InfrastructureError
|}.

Definition no_env : ProcessEnv := {| PORT := None; COOKIE_SECRET := None |}.

Definition short_env : ProcessEnv := {| PORT := None; COOKIE_SECRET := Some "short" |}.

(** A request carrying the cookie of subject [did:plc:abc123]. *)
Definition bound_request : Request :=
  {| body := None; originalUrl := "/"; cookie_header := Some "did:plc:abc123" |}.

Definition anonymous_request : Request :=
  {| body := None; originalUrl := "/"; cookie_header := None |}.

Definition callback_request : Request :=
  {| body := None; originalUrl := "/oauth/callback?state=flow-1&code=c0de";
     cookie_header := None |}.

Definition empty_handle_request : Request :=
  {| body := Some [("handle", FString EmptyString)]; originalUrl := "/login";
     cookie_header := None |}.

(** A database with one pending flow and one stored credential. *)
Definition sample_db : Database :=
  {| auth_state := [{| key := "flow-1"; payload := "true" |}];
     auth_session := [{| key := "did:plc:abc123"; payload := "false" |}] |}.

(** ** Vocabulary of the statements *)

Definition replace_auth_state (t : Table) (d : Database) : Database :=
  {| auth_state := t; auth_session := auth_session d |}.
Definition replace_auth_session (t : Table) (d : Database) : Database :=
  {| auth_state := auth_state d; auth_session := t |}.

(** [m] reads and writes table [own] only: it leaves table [other] as it
    was, and whatever [other] holds changes neither the result of [m] nor
    what [m] leaves in [own]. *)
Definition confined_to {A} (own other : Database → Table)
    (replace_other : Table → Database → Database) (m : Async Database A) : Prop :=
  ∀ d, other (exec m d) = other d
       ∧ ∀ t, eval m (replace_other t d) = eval m d
              ∧ own (exec m (replace_other t d)) = own (exec m d).

(** No row of [t] has key [k]. *)
Definition absent (k : string) (t : Table) : Prop := k ∉ key <$> t.

#[export] Instance absent_dec k t : Decision (absent k t).
Proof. unfold absent. apply _. Defined.

(** The body has no [handle] field, or an empty one. *)
Definition lacks_handle (req : Request) : Prop :=
  body_field "handle" req = FUndefined ∨ body_field "handle" req = FString EmptyString.

(** The calls the OAuth client can make on the two stores, and the
    databases they can produce from the migrated one. *)
Inductive StoreCall `{JSON} : Type :=
  | OnState_get (k : string)
  | OnState_set (k : string) (v : JsValue)
  | OnState_del (k : string)
  | OnSession_get (k : string)
  | OnSession_set (k : string) (v : JsValue)
  | OnSession_del (k : string).

Definition after_call `{JSON} (c : StoreCall) (d : Database) : Database :=
  match c with
  | OnState_get k => exec (get StateStore k) d
  | OnState_set k v => exec (set StateStore k v) d
  | OnState_del k => exec (del StateStore k) d
  | OnSession_get k => exec (get SessionStore k) d
  | OnSession_set k v => exec (set SessionStore k v) d
  | OnSession_del k => exec (del SessionStore k) d
  end.

Inductive reachable `{JSON} : Database → Prop :=
  | reachable_migrated : reachable migrateToLatest
  | reachable_call c d : reachable d → reachable (after_call c d).

(** ** The tables as finite maps *)

(** The map a table stands for: each key to the payload of its first
    row. *)
Definition table_map (t : Table) : gmap string string :=
  list_to_map ((λ r, (key r, payload r)) <$> t).

(** ** db.ts: the migration *)

(** A column as [addColumn(name, type, col => ...)] declares it. *)
Record ColumnDef : Type := {
  column : string;
  dataType : string;
  primaryKey : bool;
  notNull : bool
}.

Record TableDef : Type := { table : string; columns : list ColumnDef }.

(** The schema of a database: its tables, in creation order. *)
Abbreviation Catalog := (list TableDef).

(** SQLite compares table names without regard to ASCII case. *)
Definition to_lower (c : ascii) : ascii :=
  let n := nat_of_ascii c in
  if (65 <=? n)%nat && (n <=? 90)%nat then ascii_of_nat (n + 32) else c.

Fixpoint lower (s : string) : string :=
  match s with
  | EmptyString => EmptyString
  | String c rest => String (to_lower c) (lower rest)
  end.

Definition names (name : string) (def : TableDef) : Prop :=
  lower (table def) = lower name.

#[export] Instance names_dec name def : Decision (names name def).
Proof. unfold names. apply _. Defined.

Definition has_table (name : string) (c : Catalog) : bool :=
  bool_decide (Exists (names name) c).

Definition SqliteError (message : string) : Thrown := ErrorInstance "SqliteError" message.

(** [db.schema.createTable(name).addColumn(...)....execute()]: fails when a
    table of that name exists. *)
Definition createTable (def : TableDef) : Async Catalog unit :=
  λ c, if has_table (table def) c
       then (Throws (SqliteError ("table " +:+ table def +:+ " already exists")), c)
       else (Returns (), c ++ [def]).

(** [db.schema.dropTable(name).execute()]: fails when there is no such
    table. *)
Definition dropTable (name : string) : Async Catalog unit :=
  λ c, if has_table name c
       then (Returns (), filter (λ def, ¬ names name def) c)
       else (Throws (SqliteError ("no such table: " +:+ name)), c).

Definition auth_state_def : TableDef :=
  {| table := "auth_state";
     columns := [ {| column := "key"; dataType := "varchar"; primaryKey := true; notNull := false |};
                  {| column := "state"; dataType := "varchar"; primaryKey := false; notNull := true |} ] |}.

Definition auth_session_def : TableDef :=
  {| table := "auth_session";
     columns := [ {| column := "key"; dataType := "varchar"; primaryKey := true; notNull := false |};
                  {| column := "session"; dataType := "varchar"; primaryKey := false; notNull := true |} ] |}.

(** [migrations["001"].up] and [.down] *)
Definition up : Async Catalog unit :=
  createTable auth_state_def;;
  createTable auth_session_def.

Definition down : Async Catalog unit :=
  dropTable "auth_session";;
  dropTable "auth_state".

(** A catalog that already holds an unrelated table. *)
Definition other_catalog : Catalog :=
  [ {| table := "kysely_migration";
       columns := [ {| column := "name"; dataType := "varchar"; primaryKey := true; notNull := true |} ] |} ].

(** ** index.ts: the routes behind the login *)

(** JavaScript numbers, as far as the pages need them: they are printed. *)
Class JsNumbers : Type := {
  JsNumber : Type;
  number_toString : JsNumber → string
}.

(** [`${x}`] for a possibly undefined string or number. *)
Definition show (x : option string) : string := default "undefined" x.

Definition show_number `{JsNumbers} (x : option JsNumber) : string :=
  match x with
  | Some n => number_toString n
  | None => "undefined"
  end.

(** [pieces.join(sep)] *)
Fixpoint join (sep : string) (pieces : list string) : string :=
  match pieces with
  | [] => EmptyString
  | [piece] => piece
  | piece :: rest => piece +:+ sep +:+ join sep rest
  end.

(** [c] occurs in [s]. *)
Fixpoint occurs (c : ascii) (s : string) : bool :=
  match s with
  | EmptyString => false
  | String c' rest => bool_decide (c' = c) || occurs c rest
  end.

Definition newline : ascii := ascii_of_nat 10.

(** What the pages read of a profile, of a post record and of a recipe
    record. *)
Record ProfileView `{JsNumbers} : Type := {
  profile_did : string;
  profile_handle : string;
  profile_displayName : option string;
  profile_followersCount : option JsNumber;
  profile_followsCount : option JsNumber;
  profile_postsCount : option JsNumber
}.

Record PostRecord : Type := { post_text : option string; post_createdAt : option string }.

Record RecipeValue : Type := {
  recipe_title : option string;
  recipe_ingredients : option (list string);
  recipe_steps : option (list string);
  recipe_createdAt : option string
}.

(** The record [POST /recipe] writes, and the input of [putRecord]. *)
Record RecipeRecord : Type := {
  new_type : string;
  new_title : FormValue;
  new_ingredients : list string;
  new_steps : list string;
  new_createdAt : string
}.

Record PutRecordInput : Type := {
  put_repo : string;
  put_collection : string;
  put_rkey : string;
  put_record : RecipeRecord
}.

Definition RECIPE_COLLECTION : string := "com.myrecipes.recipe".

(** [agent.assertDid] of an agent built on an OAuth session. *)
Definition assertDid (agent : Agent) : string :=
  match agent with NewAgent oauthSession => OAuthSession.did oauthSession end.

(** The calls of [@atproto/api] the routes make.  They go through the
    OAuth session, which may refresh and store its tokens: they act on the
    database. *)
Class RepositoryClient `{JsNumbers} : Type := {
  agent_post : Agent → FormValue → Async Database unit;
  agent_getProfile : Agent → string → Async Database ProfileView;
  agent_getAuthorFeed : Agent → string → nat → Async Database (list PostRecord);
  agent_putRecord : Agent → PutRecordInput → Async Database unit;
  agent_listRecords : Agent → string → string → nat → Async Database (list RecipeValue)
}.

(** [String.prototype.trim], and what [TID.nextStr()] and
    [new Date().toISOString()] give during the request. *)
Class Builtins : Type := {
  trim : string → string;
  TID_nextStr : string;
  Date_toISOString : string
}.

Inductive RepoCall : Type :=
  | RepoPost (text : FormValue)
  | RepoGetProfile (actor : string)
  | RepoGetAuthorFeed (actor : string) (limit : nat)
  | RepoPutRecord (input : PutRecordInput)
  | RepoListRecords (repo collection : string) (limit : nat).

(** The state of a route that talks to the repository: the state of the
    authentication routes, and the repository calls made so far. *)
Record Site : Type := { world : World; repo_calls : list RepoCall }.

Definition on_world {A} (m : Async World A) : Async Site A :=
  λ s, let '(o, w) := m (world s) in (o, {| world := w; repo_calls := repo_calls s |}).

(** A repository call, recorded in [repo_calls]. *)
Definition repository {A} (c : RepoCall) (m : Async Database A) : Async Site A :=
  λ s, let '(o, d) := m (db (world s)) in
       (o, {| world := with_db (λ _, d) (world s); repo_calls := repo_calls s ++ [c] |}).

Definition TypeError (message : string) : Thrown := ErrorInstance "TypeError" message.

(** [v.split("\n").filter((line) => line.trim())], where [name] is the
    variable holding [v]: only a string has a [split] method. *)
Definition nonblank_lines `{Builtins} (name : string) (v : FormValue)
    : Outcome (list string) :=
  match v with
  | FString s => Returns (filter (λ line, trim line ≠ EmptyString) (split newline s))
  | _ => Throws (TypeError (name +:+ ".split is not a function"))
  end.

Definition landing_page : string :=
  "
        <html>
        <head><title>AT Protocol App</title></head>
        <body>
          <h1>AT Protocol Demo</h1>
          <p>A simple app using AT Protocol OAuth.</p>
          <a href=" +:+ dquote +:+ "/login" +:+ dquote +:+ ">Login with Bluesky</a>
        </body>
        </html>
      ".

Definition render_post (record : PostRecord) : string :=
  "<li><strong>"
  +:+ show (post_createdAt record)
  +:+ "</strong>: "
  +:+ show (post_text record)
  +:+ "</li>".

Definition home_page `{JsNumbers} (profile : ProfileView) (postsHtml : string) : string :=
  "
      <html>
      <head><title>AT Protocol App</title></head>
      <body>
        <h1>Welcome, "
  +:+ or_default (profile_displayName profile) (profile_handle profile)
  +:+ "!</h1>
        <p>Handle: @"
  +:+ profile_handle profile
  +:+ "</p>
        <p>DID: "
  +:+ profile_did profile
  +:+ "</p>
        <p>Followers: "
  +:+ show_number (profile_followersCount profile)
  +:+ " | Following: "
  +:+ show_number (profile_followsCount profile)
  +:+ " | Posts: "
  +:+ show_number (profile_postsCount profile)
  +:+ "</p>

        <h2>Create a Post</h2>
        <form action=" +:+ dquote +:+ "/post" +:+ dquote +:+ " method=" +:+ dquote +:+ "post" +:+ dquote +:+ ">
          <textarea name=" +:+ dquote +:+ "text" +:+ dquote +:+ " rows=" +:+ dquote +:+ "3" +:+ dquote +:+ " cols=" +:+ dquote +:+ "50" +:+ dquote +:+ " placeholder=" +:+ dquote +:+ "What's on your mind?" +:+ dquote +:+ " required></textarea>
          <br/>
          <button type=" +:+ dquote +:+ "submit" +:+ dquote +:+ ">Post</button>
        </form>

        <h2>Your Recent Posts</h2>
        <ul>"
  +:+ postsHtml
  +:+ "</ul>

        <form action=" +:+ dquote +:+ "/logout" +:+ dquote +:+ " method=" +:+ dquote +:+ "post" +:+ dquote +:+ ">
          <button type=" +:+ dquote +:+ "submit" +:+ dquote +:+ ">Logout</button>
        </form>
      </body>
      </html>
    ".

Definition render_item (i : string) : string :=
  "<li>"
  +:+ i
  +:+ "</li>".

Definition render_recipe (r : RecipeValue) : string :=
  let ingredientsList := join EmptyString (render_item <$> default [] (recipe_ingredients r)) in
  let stepsList := join EmptyString (render_item <$> default [] (recipe_steps r)) in
  "
              <div style=" +:+ dquote +:+ "border:1px solid #ccc; padding:12px; margin-bottom:12px;" +:+ dquote +:+ ">
                <h3>"
  +:+ show (recipe_title r)
  +:+ "</h3>
                <p><em>"
  +:+ show (recipe_createdAt r)
  +:+ "</em></p>
                <strong>Ingredients:</strong>
                <ul>"
  +:+ ingredientsList
  +:+ "</ul>
                <strong>Steps:</strong>
                <ol>"
  +:+ stepsList
  +:+ "</ol>
              </div>
            ".

Definition recipes_page (recipesHtml : string) : string :=
  "
      <html>
      <head><title>My Recipes — AT Protocol App</title></head>
      <body>
        <h1>Your Recipes</h1>
        "
  +:+ recipesHtml
  +:+ "
        <p><a href=" +:+ dquote +:+ "/" +:+ dquote +:+ ">Back to home</a></p>
      </body>
      </html>
    ".

Section SiteRoutes.
Context {client : NodeOAuthClient} {platform : Platform}.
Context `{repository_client : RepositoryClient} {builtins : Builtins}.
Variable env : ProcessEnv.

(** [app.post("/post", ...)] *)
Definition post_post (req : Request) : Async Site unit :=
  agent ← on_world (getSessionAgent env req);
  match agent with
  | None => on_world (redirect "/login")
  | Some agent =>
      let text := body_field "text" req in
      if negb (truthy text) then
        on_world (status 400;; send "Post text is required")
      else
        repository (RepoPost text) (agent_post agent text);;
        on_world (redirect "/")
  end.

(** [app.post("/recipe", ...)] *)
Definition post_recipe (req : Request) : Async Site unit :=
  agent ← on_world (getSessionAgent env req);
  match agent with
  | None => on_world (redirect "/login")
  | Some agent =>
      match body req with
      | None =>
          throw (TypeError
                   "Cannot destructure property 'title' of 'req.body' as it is undefined.")
      | Some fields =>
          let title := default FUndefined (assoc "title" fields) in
          let ingredients := default FUndefined (assoc "ingredients" fields) in
          let steps := default FUndefined (assoc "steps" fields) in
          if negb (truthy title) || negb (truthy ingredients) || negb (truthy steps) then
            on_world (status 400;; send "Title, ingredients, and steps are required")
          else
            ingredient_lines ← await (nonblank_lines "ingredients" ingredients);
            step_lines ← await (nonblank_lines "steps" steps);
            let input :=
              {| put_repo := assertDid agent;
                 put_collection := RECIPE_COLLECTION;
                 put_rkey := TID_nextStr;
                 put_record := {| new_type := RECIPE_COLLECTION;
                                  new_title := title;
                                  new_ingredients := ingredient_lines;
                                  new_steps := step_lines;
                                  new_createdAt := Date_toISOString |} |} in
            repository (RepoPutRecord input) (agent_putRecord agent input);;
            on_world (redirect "/recipes")
      end
  end.

(** [app.get("/recipes", ...)] *)
Definition get_recipes (req : Request) : Async Site unit :=
  agent ← on_world (getSessionAgent env req);
  match agent with
  | None => on_world (redirect "/login")
  | Some agent =>
      records ← repository (RepoListRecords (assertDid agent) RECIPE_COLLECTION 20)
                  (agent_listRecords agent (assertDid agent) RECIPE_COLLECTION 20);
      let recipesHtml :=
        match records with
        | [] => "<p>No recipes yet. Go add one!</p>"
        | _ => join EmptyString (render_recipe <$> records)
        end in
      on_world (send (recipes_page recipesHtml))
  end.

(** [app.get("/", ...)] *)
Definition get_home (req : Request) : Async Site unit :=
  agent ← on_world (getSessionAgent env req);
  match agent with
  | None => on_world (send landing_page)
  | Some agent =>
      profile ← repository (RepoGetProfile (assertDid agent))
                  (agent_getProfile agent (assertDid agent));
      feed ← repository (RepoGetAuthorFeed (assertDid agent) 5)
               (agent_getAuthorFeed agent (assertDid agent) 5);
      let postsHtml := join (String newline EmptyString) (render_post <$> feed) in
      on_world (send (home_page profile postsHtml))
  end.

End SiteRoutes.

(** A request arrives at one of these routes. *)
Definition visit (d : Database) : Site := {| world := arrive d; repo_calls := [] |}.

(** A callback URL with a second [?]. *)
Definition double_query_request : Request :=
  {| body := None; originalUrl := "/oauth/callback?state=flow-1?code=x";
     cookie_header := None |}.

(** [err instanceof Error ? err.message : "Unknown error"] *)
Definition message_of (err : Thrown) : string :=
  match err with
  | ErrorInstance _ m => m
  | NonError _ => "Unknown error"
  end.

(** A login form submitted with a handle. *)
Definition login_request : Request :=
  {| body := Some [("handle", FString "alice.example")]; originalUrl := "/login";
     cookie_header := None |}.

(** A platform whose cookie library rejects its password. *)
Definition broken_platform : Platform := {|
  getIronSession _ _ _ := Throws (ErrorInstance "Error" "iron-session: Bad usage");
  newURLSearchParams := parse_query
|}.

(** Instances for running the routes behind the login. *)
Definition nat_numbers : JsNumbers := {| JsNumber := nat; number_toString := pretty |}.

Fixpoint trim_start (s : string) : string :=
  match s with
  | EmptyString => EmptyString
  | String c rest => if Ascii.is_space c then trim_start rest else s
  end.

(** A [trim] that knows the ASCII white space. *)
Definition ascii_trim (s : string) : string :=
  String.rev (trim_start (String.rev (trim_start s))).

Definition demo_builtins : Builtins :=
  {| trim := ascii_trim;
     TID_nextStr := "3jzfcijpj2z2a";
     Date_toISOString := "2026-01-01T00:00:00.000Z" |}.

Definition demo_profile : @ProfileView nat_numbers :=
  @Build_ProfileView nat_numbers
    "did:plc:abc123" "alice.example" None (Some 3) (Some 4) None.

(** A repository that accepts every write and holds one post. *)
Definition demo_repository : @RepositoryClient nat_numbers :=
  @Build_RepositoryClient nat_numbers
    (λ _ _, mret ())
    (λ _ _, mret demo_profile)
    (λ _ _ _, mret [{| post_text := Some "hello"; post_createdAt := None |}])
    (λ _ _, mret ())
    (λ _ _ _ _, mret []).

(** A repository that cannot be reached. *)
Definition unreachable_repository : @RepositoryClient nat_numbers :=
  @Build_RepositoryClient nat_numbers
    (λ _ _, throw InfrastructureError)
    (λ _ _, throw InfrastructureError)
    (λ _ _ _, throw InfrastructureError)
    (λ _ _, throw InfrastructureError)
    (λ _ _ _ _, throw InfrastructureError).

Definition bound_cookie : option string := Some "did:plc:abc123".

Definition post_request : Request :=
  {| body := Some [("text", FString "hello")]; originalUrl := "/post";
     cookie_header := bound_cookie |}.

Definition recipe_fields (ingredients : FormValue) : list (string * FormValue) :=
  [("title", FString "Bread"); ("ingredients", ingredients); ("steps", FString "Bake")].

(** Two ingredients with a blank line between them. *)
Definition recipe_request : Request :=
  {| body := Some (recipe_fields
                     (FString ("flour" +:+ String newline (" " +:+ String newline "water"))));
     originalUrl := "/recipe"; cookie_header := bound_cookie |}.

(** Ingredients that are one space. *)
Definition blank_recipe_request : Request :=
  {| body := Some (recipe_fields (FString " "));
     originalUrl := "/recipe"; cookie_header := bound_cookie |}.

(** Ingredients submitted as [ingredients[]=flour]. *)
Definition array_recipe_request : Request :=
  {| body := Some (recipe_fields (FArray [FString "flour"]));
     originalUrl := "/recipe"; cookie_header := bound_cookie |}.

Definition demo_agent : Agent := NewAgent {| OAuthSession.did := "did:plc:abc123" |}.

(** ** Start-up: auth.ts [createOAuthClient] and index.ts [main] *)

(** The [clientMetadata] the client is constructed with. *)
Record ClientMetadata : Type := {
  client_name : string;
  client_id : string;
  client_uri : string;
  redirect_uris : list string;
  scope : string;
  grant_types : list string;
  response_types : list string;
  application_type : string;
  token_endpoint_auth_method : string;
  dpop_bound_access_tokens : bool
}.

(** What start-up takes from JavaScript, from the OAuth package and from
    Express: [Number(x)] of a possibly undefined string, the truthiness of
    a number ([NaN] and [0] are falsy), the literal [3000],
    [encodeURIComponent], the constructor [new NodeOAuthClient({...})],
    which validates the metadata and may throw, and [app.listen(port)],
    which fails for a port it cannot listen on. *)
Class Runtime `{JsNumbers} : Type := {
  Number_ : option string → JsNumber;
  number_truthy : JsNumber → bool;
  number_3000 : JsNumber;
  encodeURIComponent : string → string;
  new_NodeOAuthClient : ClientMetadata → Outcome unit;
  app_listen : JsNumber → Outcome unit
}.

(** index.ts: [const port = Number(process.env.PORT) || 3000] *)
Definition port `{Runtime} (env : ProcessEnv) : JsNumber :=
  if number_truthy (Number_ (PORT env)) then Number_ (PORT env) else number_3000.

(** auth.ts: the metadata of [createOAuthClient], with its own
    [const port = process.env.PORT || "3000"]. *)
Definition clientMetadata `{Runtime} (env : ProcessEnv) : ClientMetadata :=
  let port := or_default (PORT env) "3000" in
  {| client_name := "AT Protocol Demo App";
     client_id :=
       "http://localhost?redirect_uri="
       +:+ encodeURIComponent ("http://127.0.0.1:" +:+ port +:+ "/oauth/callback")
       +:+ "&scope=" +:+ encodeURIComponent "atproto transition:generic";
     client_uri := "http://127.0.0.1:" +:+ port;
     redirect_uris := ["http://127.0.0.1:" +:+ port +:+ "/oauth/callback"];
     scope := "atproto transition:generic";
     grant_types := ["authorization_code"; "refresh_token"];
     response_types := ["code"];
     application_type := "web";
     token_endpoint_auth_method := "none";
     dpop_bound_access_tokens := true |}.

Definition createOAuthClient `{Runtime} (env : ProcessEnv) : Outcome unit :=
  new_NodeOAuthClient (clientMetadata env).

(** db.ts [migrateToLatest(db)] on the database [main] has just created:
    the migrator runs [up] of migration "001", and what that throws is the
    [error] of [if (error) throw error]. *)
Definition migrateFresh : Outcome Catalog :=
  match up [] with
  | (Returns _, catalog) => Returns catalog
  | (Throws error, _) => Throws error
  end.

(** What [main] has set up once [app.listen] has returned: the schema and
    the (empty) tables of the in-memory database, the secret the routes
    close over, and the port. *)
Record Server `{JsNumbers} : Type := {
  server_schema : Catalog;
  server_db : Database;
  server_secret : string;
  server_port : JsNumber
}.

(** [main]: [createDb(":memory:")] and [migrateToLatest(db)], then
    [createOAuthClient(db)], then the routes and [app.listen(port)].  A
    step that throws ends [main]: [main().catch] logs the error and exits
    with status 1. *)
Definition main `{Runtime} (env : ProcessEnv) : Outcome Server :=
  match migrateFresh with
  | Throws error => Throws error
  | Returns catalog =>
      match createOAuthClient env with
      | Throws error => Throws error
      | Returns _ =>
          match app_listen (port env) with
          | Throws error => Throws error
          | Returns _ =>
              Returns {| server_schema := catalog;
                         server_db := migrateToLatest;
                         server_secret := cookieSecret env;
                         server_port := port env |}
          end
      end
  end.

(** The same environment with another [COOKIE_SECRET]. *)
Definition with_secret (secret : option string) (env : ProcessEnv) : ProcessEnv :=
  {| PORT := PORT env; COOKIE_SECRET := secret |}.

(** A runtime for running [main]: ports are decimal numbers or [NaN]
    ([None]), every metadata is accepted, and listening fails above
    65535. *)
Definition port_numbers : JsNumbers :=
  {| JsNumber := option N;
     number_toString n := match n with Some k => pretty k | None => "NaN" end |}.

Fixpoint decimal (acc : N) (s : string) : option N :=
  match s with
  | EmptyString => Some acc
  | String c rest =>
      match Ascii.is_nat c with
      | Some digit => decimal (10 * acc + N.of_nat digit)%N rest
      | None => None
      end
  end.

Definition demo_Number (x : option string) : option N :=
  match x with
  | None => None
  | Some s => decimal 0 s
  end.

Definition demo_listen (p : option N) : Outcome unit :=
  match p with
  | Some n =>
      if (n <? 65536)%N then Returns ()
      else Throws (ErrorInstance "RangeError" "options.port should be >= 0 and < 65536")
  | None => Returns ()
  end.

Definition demo_runtime : @Runtime port_numbers :=
  @Build_Runtime port_numbers
    demo_Number
    (λ n, match n with Some (Npos _) => true | _ => false end)
    (Some 3000%N)
    (λ s, s)
    (λ _, Returns ())
    demo_listen.

Definition big_port_env : ProcessEnv := {| PORT := Some "70000"; COOKIE_SECRET := None |}.

(** ** More instances *)




(** A cookie library that, like iron-session, refuses a password shorter
    than 32 characters. *)
Definition strict_platform : Platform := {|
  getIronSession req _ password :=
    if (String.length password <? min_secret_length)%nat then
      Throws (ErrorInstance "Error"
                "iron-session: Bad usage: Password must be at least 32 characters long.")
    else Returns {| did := cookie_header req |};
  newURLSearchParams := parse_query
|}.

(** * Properties *)

(** ** Sanity checks of the model on concrete inputs *)

Example split_callback_url :
  split "?" "/oauth/callback?state=flow-1&code=c0de" !! 1 = Some "state=flow-1&code=c0de".
Proof. reflexivity. Qed.

Example split_no_query : split "?" "/oauth/callback" !! 1 = None.
Proof. reflexivity. Qed.

Example parse_query_callback :
  parse_query (Some "state=flow-1&code=c0de") = [("state", "flow-1"); ("code", "c0de")].
Proof. reflexivity. Qed.

Example upsert_twice_rows :
  insertOnConflictUpdate "k" "b" (insertOnConflictUpdate "k" "a" [])
  = [{| key := "k"; payload := "b" |}].
Proof. reflexivity. Qed.

Example demo_callback_then_replay :
  let w1 := exec (@get_oauth_callback demo_client plain_platform no_env callback_request)
                 (arrive sample_db) in
  let w2 := exec (@get_oauth_callback demo_client plain_platform no_env callback_request)
                 (arrive (db w1)) in
  (statusCode (res w1), set_cookie (res w1), auth_state (db w1)) =
    (302, Some (Sealed {| did := Some "did:plc:abc123" |}), [])
  ∧ (statusCode (res w2), set_cookie (res w2)) = (500, None)
  ∧ db w2 = db w1.
Proof. vm_compute. auto. Qed.

(** ** Tables: what the three statements do to the rows *)

Section TableFacts.
Implicit Types (k p : string) (t : Table) (r : Row).

Lemma filter_key_absent k t : k ∉ key <$> t → filter (λ r, key r = k) t = [].
Proof.
  induction t as [|r t IH]; [done|].
  rewrite fmap_cons, not_elem_of_cons. intros [Hne Hnotin].
  rewrite filter_cons_False by congruence. auto.
Qed.

Lemma filter_key_nil_absent k t : filter (λ r, key r = k) t = [] → k ∉ key <$> t.
Proof.
  induction t as [|r t IH]; cbn [fmap list_fmap].
  - intros _. apply not_elem_of_nil.
  - rewrite filter_cons. case_decide; [done|].
    intros Hnil. apply not_elem_of_cons. split; [congruence | auto].
Qed.

Lemma select_absent k t : k ∉ key <$> t → selectTakeFirst k t = None.
Proof. intros Hk. unfold selectTakeFirst. by rewrite filter_key_absent. Qed.

Lemma select_None_absent k t : selectTakeFirst k t = None → k ∉ key <$> t.
Proof.
  unfold selectTakeFirst. intros Hhead. apply filter_key_nil_absent.
  by destruct (filter _ t).
Qed.

Lemma select_Some_key k t r : selectTakeFirst k t = Some r → key r = k ∧ r ∈ t.
Proof.
  unfold selectTakeFirst. intros Hhead.
  assert (r ∈ filter (λ r, key r = k) t) as Hin.
  { destruct (filter _ t); [done|]. injection Hhead as ->. apply list_elem_of_here. }
  by apply list_elem_of_filter in Hin.
Qed.

Lemma delete_absent k t : k ∉ key <$> t → deleteWhere k t = t.
Proof.
  unfold deleteWhere. induction t as [|r t IH]; [done|].
  rewrite fmap_cons, not_elem_of_cons. intros [Hne Hnotin].
  rewrite filter_cons_True by congruence. f_equal. auto.
Qed.

Lemma delete_removes k t : k ∉ key <$> deleteWhere k t.
Proof.
  unfold deleteWhere. intros Hin.
  apply list_elem_of_fmap in Hin as (r & -> & Hr).
  apply list_elem_of_filter in Hr as [Hne _]. done.
Qed.

Lemma delete_idempotent k t : deleteWhere k (deleteWhere k t) = deleteWhere k t.
Proof. apply delete_absent, delete_removes. Qed.

Lemma select_delete k t : selectTakeFirst k (deleteWhere k t) = None.
Proof. apply select_absent, delete_removes. Qed.

Lemma select_delete_other k k' t :
  k' ≠ k → selectTakeFirst k' (deleteWhere k t) = selectTakeFirst k' t.
Proof.
  intros Hne. unfold selectTakeFirst, deleteWhere. f_equal.
  induction t as [|r t IH]; [done|].
  rewrite !filter_cons.
  destruct (decide (key r = k)) as [->|Hk].
  - rewrite decide_False by auto. rewrite decide_False by auto. done.
  - rewrite decide_True by done. rewrite filter_cons.
    case_decide; by rewrite IH.
Qed.

Lemma delete_primary_key k t : primary_key t → primary_key (deleteWhere k t).
Proof.
  unfold primary_key, deleteWhere. induction t as [|r t IH]; [done|].
  rewrite fmap_cons, NoDup_cons. intros [Hnotin Hnd].
  rewrite filter_cons. case_decide; auto.
  rewrite fmap_cons, NoDup_cons. split; auto.
  intros Hin. apply Hnotin.
  apply list_elem_of_fmap in Hin as (r' & Hkey & Hr').
  apply list_elem_of_filter in Hr' as [_ Hr'].
  apply list_elem_of_fmap. eauto.
Qed.

Lemma doUpdateSet_key k p r : key (doUpdateSet k p r) = key r.
Proof. unfold doUpdateSet. by case_decide. Qed.

Lemma update_keys k p t : key <$> (doUpdateSet k p <$> t) = key <$> t.
Proof.
  rewrite <- list_fmap_compose. apply list_fmap_ext.
  intros _ r _. apply doUpdateSet_key.
Qed.

Lemma insert_keys k p t :
  key <$> insertOnConflictUpdate k p t =
  if decide (k ∈ key <$> t) then key <$> t else (key <$> t) ++ [k].
Proof.
  unfold insertOnConflictUpdate.
  destruct (selectTakeFirst k t) as [r|] eqn:Hsel.
  - apply select_Some_key in Hsel as [Hkey Hin].
    rewrite decide_True; [apply update_keys|].
    apply list_elem_of_fmap. eauto.
  - apply select_None_absent in Hsel.
    rewrite decide_False by done. by rewrite fmap_app.
Qed.

Lemma insert_primary_key k p t :
  primary_key t → primary_key (insertOnConflictUpdate k p t).
Proof.
  unfold primary_key. intros Hnd. rewrite insert_keys.
  case_decide; [done|].
  apply NoDup_app. split_and!; [done| |apply NoDup_singleton].
  intros x Hx Hx'. apply list_elem_of_singleton in Hx' as ->. done.
Qed.

Lemma select_update k p t r :
  selectTakeFirst k t = Some r →
  selectTakeFirst k (doUpdateSet k p <$> t) = Some {| key := k; payload := p |}.
Proof.
  unfold selectTakeFirst. induction t as [|r' t IH]; [done|].
  rewrite fmap_cons, !filter_cons, doUpdateSet_key.
  case_decide as Hk; [|done].
  intros _. cbn. unfold doUpdateSet. rewrite decide_True by done. by rewrite Hk.
Qed.

Lemma select_append k p t :
  selectTakeFirst k t = None →
  selectTakeFirst k (t ++ [{| key := k; payload := p |}]) = Some {| key := k; payload := p |}.
Proof.
  intros Hsel. apply select_None_absent in Hsel.
  unfold selectTakeFirst. rewrite filter_app, filter_key_absent by done.
  by rewrite filter_cons_True.
Qed.

Lemma select_insert k p t :
  selectTakeFirst k (insertOnConflictUpdate k p t) = Some {| key := k; payload := p |}.
Proof.
  unfold insertOnConflictUpdate.
  destruct (selectTakeFirst k t) eqn:Hsel; eauto using select_update, select_append.
Qed.

Lemma select_insert_other k k' p t :
  k' ≠ k → selectTakeFirst k' (insertOnConflictUpdate k p t) = selectTakeFirst k' t.
Proof.
  intros Hne. unfold insertOnConflictUpdate.
  destruct (selectTakeFirst k t) as [r0|] eqn:Hsel; unfold selectTakeFirst.
  - f_equal. clear Hsel. induction t as [|r t IH]; [done|].
    rewrite fmap_cons, !filter_cons, doUpdateSet_key.
    case_decide as Hk.
    + rewrite IH. f_equal. unfold doUpdateSet.
      rewrite decide_False; [done | congruence].
    + done.
  - rewrite filter_app. rewrite (filter_cons_False _ _ []) by (cbn; congruence).
    by rewrite app_nil_r.
Qed.

Lemma rows_for_primary_key k t : primary_key t → rows_for k t ≤ 1.
Proof.
  unfold primary_key, rows_for. induction t as [|r t IH]; [cbn; lia|].
  rewrite fmap_cons, NoDup_cons. intros [Hnotin Hnd].
  rewrite filter_cons. case_decide as Hk; [|auto].
  subst k. rewrite filter_key_absent by done. cbn. lia.
Qed.

Lemma rows_for_select k t r : selectTakeFirst k t = Some r → 1 ≤ rows_for k t.
Proof.
  unfold selectTakeFirst, rows_for. destruct (filter _ t); [done|]. cbn. lia.
Qed.

Lemma rows_for_insert k p t :
  primary_key t → rows_for k (insertOnConflictUpdate k p t) = 1.
Proof.
  intros Hpk.
  pose proof (rows_for_primary_key k _ (insert_primary_key k p t Hpk)).
  pose proof (rows_for_select k _ _ (select_insert k p t)). lia.
Qed.

Lemma insert_again_keys k p p' t :
  key <$> insertOnConflictUpdate k p' (insertOnConflictUpdate k p t)
  = key <$> insertOnConflictUpdate k p t.
Proof.
  rewrite (insert_keys k p'). rewrite decide_True; [done|].
  pose proof (select_insert k p t) as Hsel.
  apply select_Some_key in Hsel as [_ Hin].
  apply list_elem_of_fmap. by exists {| key := k; payload := p |}.
Qed.

End TableFacts.

(** ** The stores *)

Section StoreFacts.
Context `{JSON}.
Implicit Types (k : string) (v : JsValue) (d : Database).

Lemma StateStore_set_run k v d :
  set StateStore k v d =
  (Returns (), replace_auth_state
                 (insertOnConflictUpdate k (JSON_stringify v) (auth_state d)) d).
Proof. reflexivity. Qed.

Lemma SessionStore_set_run k v d :
  set SessionStore k v d =
  (Returns (), replace_auth_session
                 (insertOnConflictUpdate k (JSON_stringify v) (auth_session d)) d).
Proof. reflexivity. Qed.

Lemma StateStore_del_run k d :
  del StateStore k d = (Returns (), replace_auth_state (deleteWhere k (auth_state d)) d).
Proof. reflexivity. Qed.

Lemma SessionStore_del_run k d :
  del SessionStore k d = (Returns (), replace_auth_session (deleteWhere k (auth_session d)) d).
Proof. reflexivity. Qed.

Lemma StateStore_get_run k d :
  get StateStore k d = parse_row (selectTakeFirst k (auth_state d)) d.
Proof. reflexivity. Qed.

Lemma SessionStore_get_run k d :
  get SessionStore k d = parse_row (selectTakeFirst k (auth_session d)) d.
Proof. reflexivity. Qed.

Lemma parse_row_state (r : option Row) d : snd (parse_row r d) = d.
Proof. destruct r as [r|]; cbn; [|done]. by destruct (JSON_parse (payload r)). Qed.

(** Reading does not change the database. *)
Lemma get_leaves_db k d :
  exec (get StateStore k) d = d ∧ exec (get SessionStore k) d = d.
Proof.
  unfold exec. by rewrite StateStore_get_run, SessionStore_get_run, !parse_row_state.
Qed.

(** The stores never break the primary-key constraint. *)
Lemma after_call_db_ok (c : StoreCall) d : db_ok d → db_ok (after_call c d).
Proof.
  intros [Hstate Hsession].
  destruct c as [k|k v|k|k|k v|k]; cbn [after_call];
    rewrite ?(proj1 (get_leaves_db k d)), ?(proj2 (get_leaves_db k d));
    split; cbn; auto using insert_primary_key, delete_primary_key.
Qed.

Lemma migrated_db_ok : db_ok migrateToLatest.
Proof. split; apply NoDup_nil_2. Qed.

(** So the constraint holds in every database the application can be in. *)
Lemma reachable_db_ok d : reachable d → db_ok d.
Proof.
  induction 1 as [|c d _ IH]; [apply migrated_db_ok | by apply after_call_db_ok].
Qed.

End StoreFacts.

(** C1. In either store, [set(k, v1)] then [set(k, v2)] then [get(k)]
    returns [v2].  The second [set] is one statement that replaces the
    payload of the row the first one left: the table has the same keys in
    the same order after it, and exactly one row for [k]. *)
Theorem set_set_get_returns_second `{JSON} `{!JSONRoundTrip}
    (k : string) (v1 v2 : JsValue) (d : Database) :
  db_ok d →
  let once (store : SimpleStore) := exec (set store k v1) d in
  let twice (store : SimpleStore) := exec (set store k v2) (once store) in
  (get StateStore k (twice StateStore) = (Returns (Some v2), twice StateStore)
   ∧ rows_for k (auth_state (twice StateStore)) = 1
   ∧ key <$> auth_state (twice StateStore) = key <$> auth_state (once StateStore))
  ∧ (get SessionStore k (twice SessionStore) = (Returns (Some v2), twice SessionStore)
     ∧ rows_for k (auth_session (twice SessionStore)) = 1
     ∧ key <$> auth_session (twice SessionStore) = key <$> auth_session (once SessionStore)).
Proof.
  intros [Hstate Hsession] once twice. unfold twice, once, exec.
  rewrite !StateStore_set_run, !SessionStore_set_run,
    StateStore_get_run, SessionStore_get_run.
  cbn [snd replace_auth_state replace_auth_session auth_state auth_session].
  rewrite !select_insert. cbn [parse_row payload].
  rewrite json_round_trip.
  split; (split_and!; [done | | apply insert_again_keys]);
    apply rows_for_insert; by apply insert_primary_key.
Qed.

(** C8. In either store, [del(k)] for a key with no row returns without
    throwing and leaves the database as it was; and for every key, a second
    [del(k)] changes nothing the first one left. *)
Theorem del_absent_key_unchanged `{JSON} (k : string) (d : Database) :
  (absent k (auth_state d) → del StateStore k d = (Returns (), d))
  ∧ (absent k (auth_session d) → del SessionStore k d = (Returns (), d))
  ∧ (del StateStore k;; del StateStore k) d = del StateStore k d
  ∧ (del SessionStore k;; del SessionStore k) d = del SessionStore k d.
Proof.
  unfold mbind, async_bind.
  rewrite !StateStore_del_run, !SessionStore_del_run.
  destruct d as [state session]. unfold replace_auth_state, replace_auth_session.
  cbn [auth_state auth_session]. split_and!.
  - intros Habsent. by rewrite delete_absent.
  - intros Habsent. by rewrite delete_absent.
  - by rewrite delete_idempotent.
  - by rewrite delete_idempotent.
Qed.

Lemma del_absent_key_unchanged_witness :
  del (@StateStore literal_json) "flow-2" sample_db = (Returns (), sample_db)
  ∧ del (@SessionStore literal_json) "did:plc:nobody" sample_db = (Returns (), sample_db).
Proof.
  pose proof (@del_absent_key_unchanged literal_json "flow-2" sample_db) as (Hstate & _).
  pose proof (@del_absent_key_unchanged literal_json "did:plc:nobody" sample_db)
    as (_ & Hsession & _).
  split; [apply Hstate | apply Hsession]; vm_compute; intros Hin;
    apply list_elem_of_In in Hin; cbn in Hin; intuition discriminate.
Defined.

(** C10. Every operation of [StateStore] is confined to [auth_state] and
    every operation of [SessionStore] to [auth_session]: it leaves the
    other table as it was, and the other table's content changes neither
    its result nor what it leaves in its own table. *)
Theorem stores_are_disjoint `{JSON} (k : string) (v : JsValue) :
  (confined_to auth_state auth_session replace_auth_session (get StateStore k)
   ∧ confined_to auth_state auth_session replace_auth_session (set StateStore k v)
   ∧ confined_to auth_state auth_session replace_auth_session (del StateStore k))
  ∧ (confined_to auth_session auth_state replace_auth_state (get SessionStore k)
     ∧ confined_to auth_session auth_state replace_auth_state (set SessionStore k v)
     ∧ confined_to auth_session auth_state replace_auth_state (del SessionStore k)).
Proof.
  unfold confined_to, eval, exec.
  split; split_and!; intros d; (split; [|intros t]);
    rewrite ?StateStore_get_run, ?SessionStore_get_run, ?parse_row_state; try done;
    cbn [replace_auth_state replace_auth_session auth_state auth_session];
    (split; [|done]);
    match goal with |- context [parse_row ?o] => destruct o as [row|]; cbn; [|done] end;
    by destruct (JSON_parse (payload row)).
Qed.

Lemma set_set_get_returns_second_witness :
  db_ok sample_db
  ∧ get (@StateStore literal_json) "flow-1"
      (exec (set (@StateStore literal_json) "flow-1" JNull)
         (exec (set (@StateStore literal_json) "flow-1" JFalse) sample_db))
    = (Returns (Some JNull),
       {| auth_state := [{| key := "flow-1"; payload := "null" |}];
          auth_session := [{| key := "did:plc:abc123"; payload := "false" |}] |}).
Proof.
  assert (db_ok sample_db) as Hok.
  { split; unfold primary_key; apply (bool_decide_unpack _); vm_compute; exact I. }
  assert (@JSONRoundTrip literal_json) as Hjson by (intros []; reflexivity).
  split; [exact Hok|].
  apply (@set_set_get_returns_second literal_json Hjson "flow-1" JFalse JNull sample_db Hok).
Defined.

(** ** The routes *)

Section RouteFacts.
Context {client : NodeOAuthClient} {platform : Platform}.
Implicit Types (env : ProcessEnv) (req : Request) (w : World).

Lemma getSession_run env req w :
  getSession env req w = (getIronSession req "sid" (cookieSecret env), w).
Proof. reflexivity. Qed.

Lemma truthy_lacks_handle req : lacks_handle req ↔ truthy (body_field "handle" req) = false.
Proof.
  unfold lacks_handle. split.
  - by intros [-> | ->].
  - destruct (body_field "handle" req) as [|[|c s]| |]; cbn; try done; auto.
Qed.

(** The catch branch of [GET /oauth/callback]. *)
Lemma get_oauth_callback_failed env req w e d' :
  callback (newURLSearchParams (split "?" (originalUrl req) !! 1)) (db w) = (Throws e, d') →
  get_oauth_callback env req w =
    (Returns (),
     exec (console_error "OAuth callback failed:" (ArgThrown e);;
           status 500;; send callback_failed_page)
          (with_db (λ _, d')
             (with_call (CallCallback
                           (newURLSearchParams (split "?" (originalUrl req) !! 1))) w))).
Proof.
  intros Hcallback. unfold get_oauth_callback, try_catch.
  unfold mbind at 1. unfold async_bind at 1.
  unfold oauthClient_callback, on_db, mbind, async_bind.
  cbn [modify with_call db]. by rewrite Hcallback.
Qed.

End RouteFacts.

(** C6. A [POST /login] whose body has no [handle], or an empty one, is
    answered 400 "Handle is required"; the handler returns before calling
    [authorize], and the database (so the [auth_state] table) is as it
    was. *)
Theorem post_login_requires_handle {client : NodeOAuthClient}
    (req : Request) (w : World) :
  lacks_handle req →
  let w' := exec (post_login req) w in
  eval (post_login req) w = Returns ()
  ∧ statusCode (res w') = 400
  ∧ sent (res w') = Some "Handle is required"
  ∧ calls w' = calls w
  ∧ db w' = db w.
Proof.
  intros Hlacks%truthy_lacks_handle w'. unfold w', exec, eval, post_login.
  rewrite Hlacks. done.
Qed.

Lemma post_login_requires_handle_witness :
  lacks_handle empty_handle_request
  ∧ res (exec (@post_login demo_client empty_handle_request) (arrive sample_db))
    = {| statusCode := 400; sent := Some "Handle is required";
         location := None; set_cookie := None |}
  ∧ db (exec (@post_login demo_client empty_handle_request) (arrive sample_db)) = sample_db.
Proof.
  assert (lacks_handle empty_handle_request) as Hlacks by (right; reflexivity).
  pose proof (@post_login_requires_handle demo_client
                empty_handle_request (arrive sample_db) Hlacks) as (_ & _ & _ & _ & Hdb).
  split_and!; [exact Hlacks | reflexivity | exact Hdb].
Defined.

(** C7, as the code has it.  [POST /logout] calls no method of the client
    and leaves the database as it was, so the credential stored for any
    subject is still there.  Once the session cookie has been read it
    expires the cookie and redirects to [/], whatever subject the cookie was
    bound to; when reading the cookie throws, the handler throws that error
    and has neither expired the cookie nor redirected. *)
Theorem post_logout_only_unbinds `{JSON} {platform : Platform}
    (env : ProcessEnv) (req : Request) (w : World) :
  let w' := exec (post_logout env req) w in
  (calls w' = calls w
   ∧ db w' = db w
   ∧ ∀ sub, get SessionStore sub (db w') = get SessionStore sub (db w))
  ∧ (∀ session, getIronSession req "sid" (cookieSecret env) = Returns session →
       eval (post_logout env req) w = Returns ()
       ∧ set_cookie (res w') = Some Expired
       ∧ statusCode (res w') = 302
       ∧ location (res w') = Some "/")
  ∧ (∀ e, getIronSession req "sid" (cookieSecret env) = Throws e →
       post_logout env req w = (Throws e, w)).
Proof.
  intros w'. unfold w', exec, eval, post_logout, mbind, async_bind.
  rewrite getSession_run.
  destruct (getIronSession req "sid" (cookieSecret env)) as [session|e].
  - split_and!; [done.. | by intros _ _ | by intros ? [=]].
  - split_and!; [done.. | by intros session [=] | by intros ? [= <-]].
Qed.

Lemma post_logout_only_unbinds_witness :
  let w' := exec (@post_logout plain_platform no_env bound_request) (arrive sample_db) in
  set_cookie (res w') = Some Expired
  ∧ get (@SessionStore literal_json) "did:plc:abc123" (db w') = (Returns (Some JFalse), sample_db).
Proof.
  pose proof (@post_logout_only_unbinds literal_json plain_platform no_env bound_request
                (arrive sample_db)) as ((_ & _ & Hget) & Hunbind & _).
  specialize (Hunbind {| did := Some "did:plc:abc123" |} eq_refl) as (_ & Hcookie & _).
  split; [exact Hcookie|]. rewrite Hget. reflexivity.
Defined.

(** C7 as stated fails: logout is not unconditional.  With a five-character
    [COOKIE_SECRET] and a cookie library that refuses it, [POST /logout]
    throws; the response has no [Set-Cookie] header and no redirect. *)
Lemma post_logout_throws_when_cookie_unreadable :
  let run := @post_logout strict_platform short_env bound_request in
  is_returns (eval run (arrive sample_db)) = false
  ∧ res (exec run (arrive sample_db)) = fresh_response
  ∧ set_cookie (res (exec run (arrive sample_db))) ≠ Some Expired
  ∧ location (res (exec run (arrive sample_db))) ≠ Some "/".
Proof. split_and!; [reflexivity | reflexivity | discriminate | discriminate]. Qed.

(** C9. When [oauthClient.callback] throws, [GET /oauth/callback] answers
    500 and writes no cookie.  The handler assigns [session.did] and calls
    [session.save] only after [callback] has returned: whenever it leaves a
    [Set-Cookie] header on a response that had none, [callback] returned a
    session and the cookie seals that session's subject. *)
Theorem callback_failure_binds_nothing {client : NodeOAuthClient} {platform : Platform}
    (env : ProcessEnv) (req : Request) (w : World) :
  let params := newURLSearchParams (split "?" (originalUrl req) !! 1) in
  let w' := exec (get_oauth_callback env req) w in
  (∀ e d', callback params (db w) = (Throws e, d') →
     eval (get_oauth_callback env req) w = Returns ()
     ∧ statusCode (res w') = 500
     ∧ sent (res w') = Some callback_failed_page
     ∧ set_cookie (res w') = set_cookie (res w)
     ∧ location (res w') = location (res w))
  ∧ (∀ c, set_cookie (res w) = None → set_cookie (res w') = Some c →
       ∃ oauthSession d', callback params (db w) = (Returns oauthSession, d')
         ∧ c = Sealed {| did := Some (OAuthSession.did oauthSession) |}).
Proof.
  intros params w'. unfold w', exec, eval, get_oauth_callback, try_catch.
  fold params. unfold mbind, async_bind, oauthClient_callback, on_db, mbind, async_bind.
  cbn [modify with_call db].
  destruct (callback params (db w)) as [[oauthSession|e0] d0] eqn:Hcallback.
  - split; [intros e d' [=]|].
    rewrite getSession_run. intros c Hnone.
    destruct (getIronSession req "sid" (cookieSecret env)) as [session|e1]; cbn.
    + intros [= <-]. eauto.
    + rewrite Hnone. done.
  - split; [intros e d' _; done|].
    cbn. intros c -> [=].
Qed.

Lemma callback_failure_binds_nothing_witness :
  let w' := exec (@get_oauth_callback unreachable_client plain_platform no_env callback_request)
                 (arrive sample_db) in
  statusCode (res w') = 500 ∧ set_cookie (res w') = None.
Proof.
  pose proof (@callback_failure_binds_nothing unreachable_client plain_platform no_env
                callback_request (arrive sample_db)) as [Hthrows _].
  specialize (Hthrows InfrastructureError sample_db eq_refl)
    as (_ & Hstatus & _ & Hcookie & _).
  split; [exact Hstatus | exact Hcookie].
Defined.

(** ** getSessionAgent *)

Section AgentFacts.
Context {client : NodeOAuthClient} {platform : Platform}.
Implicit Types (env : ProcessEnv) (req : Request) (w : World).

(** The three ways [getSessionAgent] ends once the cookie was read. *)
Lemma getSessionAgent_anonymous env req w session :
  getIronSession req "sid" (cookieSecret env) = Returns session →
  truthy_string (did session) = false →
  getSessionAgent env req w = (Returns None, w).
Proof.
  intros Hsession Hfalsy. unfold getSessionAgent, mbind, async_bind.
  rewrite getSession_run, Hsession.
  by destruct (did session) as [[|c s]|].
Qed.

Lemma getSessionAgent_restored env req w session sub found d' :
  getIronSession req "sid" (cookieSecret env) = Returns session →
  did session = Some sub → sub ≠ EmptyString →
  restore sub (db w) = (Returns found, d') →
  getSessionAgent env req w =
    (Returns (NewAgent <$> found), with_db (λ _, d') (with_call (CallRestore sub) w)).
Proof.
  intros Hsession Hdid Hsub Hrestore. unfold getSessionAgent, mbind, async_bind.
  rewrite getSession_run, Hsession, Hdid.
  destruct sub as [|c s]; [done|].
  unfold try_catch, oauthClient_restore, on_db, mbind, async_bind.
  cbn [modify with_call db]. by rewrite Hrestore.
Qed.

Lemma getSessionAgent_failed env req w session sub e d' :
  getIronSession req "sid" (cookieSecret env) = Returns session →
  did session = Some sub → sub ≠ EmptyString →
  restore sub (db w) = (Throws e, d') →
  getSessionAgent env req w =
    (Returns None,
     exec session_destroy (with_db (λ _, d') (with_call (CallRestore sub) w))).
Proof.
  intros Hsession Hdid Hsub Hrestore. unfold getSessionAgent, mbind, async_bind.
  rewrite getSession_run, Hsession, Hdid.
  destruct sub as [|c s]; [done|].
  unfold try_catch, oauthClient_restore, on_db, mbind, async_bind.
  cbn [modify with_call db]. by rewrite Hrestore.
Qed.

End AgentFacts.

(** C3, as the code has it.  Once the cookie was read, [getSessionAgent]
    never throws: for an anonymous cookie it returns [null] and touches
    nothing, and when [restore] throws, whatever the error, the error is
    caught and [null] is returned. *)
Theorem getSessionAgent_never_rethrows {client : NodeOAuthClient} {platform : Platform}
    (env : ProcessEnv) (req : Request) (w : World) (session : Session) :
  getIronSession req "sid" (cookieSecret env) = Returns session →
  is_returns (eval (getSessionAgent env req) w) = true
  ∧ (truthy_string (did session) = false →
       getSessionAgent env req w = (Returns None, w))
  ∧ (∀ sub e d', did session = Some sub → sub ≠ EmptyString →
       restore sub (db w) = (Throws e, d') →
       eval (getSessionAgent env req) w = Returns None).
Proof.
  intros Hsession. split_and!.
  - destruct (did session) as [[|c s]|] eqn:Hdid.
    + unfold eval. erewrite getSessionAgent_anonymous; eauto. by rewrite Hdid.
    + destruct (restore (String c s) (db w)) as [[found|e] d'] eqn:Hrestore; unfold eval.
      * erewrite getSessionAgent_restored; eauto.
      * erewrite getSessionAgent_failed; eauto.
    + unfold eval. erewrite getSessionAgent_anonymous; eauto. by rewrite Hdid.
  - by apply getSessionAgent_anonymous.
  - intros sub e d' Hdid Hsub Hrestore. unfold eval.
    erewrite getSessionAgent_failed; eauto.
Qed.

Lemma getSessionAgent_never_rethrows_witness :
  eval (@getSessionAgent demo_client plain_platform no_env anonymous_request)
       (arrive sample_db) = Returns None
  ∧ is_returns (eval (@getSessionAgent demo_client plain_platform no_env bound_request)
                     (arrive sample_db)) = true.
Proof.
  split.
  - pose proof (@getSessionAgent_never_rethrows demo_client plain_platform no_env
                  anonymous_request (arrive sample_db) {| did := None |} eq_refl)
      as (_ & Hanonymous & _).
    unfold eval. by rewrite Hanonymous.
  - apply (@getSessionAgent_never_rethrows demo_client plain_platform no_env
             bound_request (arrive sample_db) {| did := Some "did:plc:abc123" |} eq_refl).
Defined.

(** C3 as stated fails: with a client whose [restore] throws an
    infrastructure error, [getSessionAgent] returns [null] for a bound
    cookie instead of letting the error through. *)
Lemma getSessionAgent_hides_infrastructure_failure :
  let run := @getSessionAgent unreachable_client plain_platform no_env bound_request in
  @restore unreachable_client "did:plc:abc123" sample_db = (Throws InfrastructureError, sample_db)
  ∧ eval run (arrive sample_db) = Returns None
  ∧ eval run (arrive sample_db) ≠ Throws InfrastructureError.
Proof. split_and!; [reflexivity | reflexivity | discriminate]. Qed.



(** ** Start-up *)

Section StartupFacts.
Context `{runtime : Runtime}.

Lemma migrateFresh_returns :
  migrateFresh = Returns [auth_state_def; auth_session_def].
Proof. reflexivity. Qed.

(** [main] step by step: it starts exactly when the client is constructed
    and the port can be listened on. *)
Lemma main_run (env : ProcessEnv) :
  main env =
    match createOAuthClient env with
    | Throws error => Throws error
    | Returns _ =>
        match app_listen (port env) with
        | Throws error => Throws error
        | Returns _ =>
            Returns {| server_schema := [auth_state_def; auth_session_def];
                       server_db := migrateToLatest;
                       server_secret := cookieSecret env;
                       server_port := port env |}
        end
    end.
Proof. unfold main. by rewrite migrateFresh_returns. Qed.

End StartupFacts.

(** C5, as the code has it.  No step of [main] looks at the secret:
    [main] starts exactly when the client is constructed and the port can
    be listened on, and with any other [COOKIE_SECRET] and the same [PORT]
    it fails with the same error or starts the same server, up to the
    secret.  When it starts, a missing or empty [COOKIE_SECRET] has been
    replaced by the development secret (which is long enough) and any other
    value is used as it is, of any length. *)
Theorem main_ignores_the_secret `{runtime : Runtime}
    (env : ProcessEnv) (secret : option string) :
  is_returns (main env)
  = is_returns (createOAuthClient env) && is_returns (app_listen (port env))
  ∧ (∀ error, main env = Throws error → main (with_secret secret env) = Throws error)
  ∧ (∀ server, main env = Returns server →
       main (with_secret secret env) =
         Returns {| server_schema := server_schema server;
                    server_db := server_db server;
                    server_secret := cookieSecret (with_secret secret env);
                    server_port := server_port server |}
       ∧ server_secret server = cookieSecret env
       ∧ (truthy_string (COOKIE_SECRET env) = false →
            server_secret server = development_secret
            ∧ min_secret_length ≤ String.length (server_secret server))
       ∧ (∀ c s, COOKIE_SECRET env = Some (String c s) →
            server_secret server = String c s)).
Proof.
  rewrite !main_run.
  change (createOAuthClient (with_secret secret env)) with (createOAuthClient env).
  change (port (with_secret secret env)) with (port env).
  destruct (createOAuthClient env) as [[]|e1];
    [|by split_and!; [| intros ? [= <-] | intros ? [=]]].
  destruct (app_listen (port env)) as [[]|e2];
    [|by split_and!; [| intros ? [= <-] | intros ? [=]]].
  split_and!; [done | by intros ? [=] |]. intros server [= <-].
  cbn [server_schema server_db server_secret server_port].
  split_and!; [done | done | |].
  - unfold cookieSecret. intros Hfalsy.
    destruct (COOKIE_SECRET env) as [[|c s]|]; try discriminate;
      (split; [reflexivity | unfold min_secret_length; cbn; lia]).
  - unfold cookieSecret. by intros c s ->.
Qed.

Lemma main_ignores_the_secret_witness :
  @main port_numbers demo_runtime short_env
  = Returns (@Build_Server port_numbers [auth_state_def; auth_session_def] migrateToLatest
               "short" (Some 3000%N))
  ∧ @main port_numbers demo_runtime (with_secret (Some "short") big_port_env)
    = Throws (ErrorInstance "RangeError" "options.port should be >= 0 and < 65536").
Proof.
  split.
  - apply (proj2 (proj2 (@main_ignores_the_secret port_numbers demo_runtime no_env
                             (Some "short")))
             (@Build_Server port_numbers [auth_state_def; auth_session_def] migrateToLatest
                development_secret (Some 3000%N)) eq_refl).
  - apply (proj1 (proj2 (@main_ignores_the_secret port_numbers demo_runtime big_port_env
                           (Some "short")))).
    reflexivity.
Defined.

(** C5 as stated fails: on a runtime where the client is constructed and
    port 3000 can be listened on, [main] starts with a five-character
    [COOKIE_SECRET], which the routes then use, and it starts with none. *)
Lemma main_starts_with_short_secret :
  @main port_numbers demo_runtime short_env
  = Returns (@Build_Server port_numbers [auth_state_def; auth_session_def] migrateToLatest
               "short" (Some 3000%N))
  ∧ String.length "short" < min_secret_length
  ∧ is_returns (@main port_numbers demo_runtime no_env) = true.
Proof. split_and!; [reflexivity | vm_compute; lia | reflexivity]. Qed.

(** ** The coordinator: single use of a flow identifier *)

Section CoordinatorFacts.
Context `{JSON} {identity : IdentityClient}.

(** What a successful [completeCallback] did. *)
Lemma completeCallback_returns params d sub credential d' :
  completeCallback StateStore SessionStore params d = (Returns (sub, credential), d') →
  ∃ flow, assoc "state" params = Some flow
    ∧ d' = exec (set SessionStore sub credential) (exec (del StateStore flow) d).
Proof.
  unfold completeCallback.
  destruct (assoc "state" params) as [flow|]; [|discriminate].
  unfold mbind at 1. unfold async_bind at 1.
  rewrite StateStore_get_run.
  destruct (selectTakeFirst flow (auth_state d)) as [row|]; cbn [parse_row];
    [|discriminate].
  destruct (JSON_parse (payload row)) as [context|]; [|discriminate].
  cbn [mret async_ret].
  unfold mbind, async_bind. rewrite StateStore_del_run.
  unfold await.
  destruct (exchange params context) as [[sub' credential']|e]; [|discriminate].
  rewrite SessionStore_set_run. intros [= -> -> <-]. eauto.
Qed.

Lemma completeCallback_unknown_flow params flow d :
  assoc "state" params = Some flow →
  absent flow (auth_state d) →
  completeCallback StateStore SessionStore params d = (Throws UnknownOrConsumedFlow, d).
Proof.
  intros Hflow Habsent. unfold completeCallback. rewrite Hflow.
  unfold mbind, async_bind. rewrite StateStore_get_run.
  by rewrite select_absent.
Qed.

End CoordinatorFacts.

(** C2.  After [completeCallback] has returned for some parameters, the
    flow record they name is gone from [auth_state]; calling it again with
    the same parameters throws [UnknownOrConsumedFlow] and writes nothing,
    and [GET /oauth/callback] then answers 500 without binding a cookie or
    storing a credential. *)
Theorem replayed_callback_fails `{JSON} {identity : IdentityClient} {platform : Platform}
    (params : URLSearchParams) (d d' : Database) (sub : string) (credential : JsValue) :
  completeCallback StateStore SessionStore params d = (Returns (sub, credential), d') →
  (∃ flow, assoc "state" params = Some flow ∧ absent flow (auth_state d'))
  ∧ completeCallback StateStore SessionStore params d' = (Throws UnknownOrConsumedFlow, d')
  ∧ ∀ env req w,
      newURLSearchParams (split "?" (originalUrl req) !! 1) = params → db w = d' →
      let w' := exec (get_oauth_callback (client := coordinator StateStore SessionStore)
                        env req) w in
      statusCode (res w') = 500
      ∧ set_cookie (res w') = set_cookie (res w)
      ∧ db w' = d'.
Proof.
  intros (flow & Hflow & ->)%completeCallback_returns.
  assert (absent flow (auth_state (exec (set SessionStore sub credential)
                                        (exec (del StateStore flow) d)))) as Habsent.
  { unfold exec. rewrite SessionStore_set_run, StateStore_del_run. cbn.
    apply delete_removes. }
  pose proof (completeCallback_unknown_flow params flow _ Hflow Habsent) as Hreplay.
  split_and!; [eauto | done |].
  intros env req w Hparams Hdb w'. unfold w', exec.
  erewrite (get_oauth_callback_failed (client := coordinator StateStore SessionStore)).
  - cbn. done.
  - rewrite Hparams, Hdb. cbn [callback coordinator].
    unfold mbind, async_bind. rewrite Hreplay. reflexivity.
Qed.

Lemma replayed_callback_fails_witness :
  let params := [("state", "flow-1"); ("code", "c0de")] in
  let d' := {| auth_state := [];
               auth_session := [{| key := "did:plc:abc123"; payload := "false" |}] |} in
  @completeCallback literal_json demo_identity StateStore SessionStore params sample_db
    = (Returns ("did:plc:abc123", JFalse), d')
  ∧ @completeCallback literal_json demo_identity StateStore SessionStore params d'
    = (Throws UnknownOrConsumedFlow, d').
Proof.
  intros params d'.
  assert (@completeCallback literal_json demo_identity StateStore SessionStore params sample_db
          = (Returns ("did:plc:abc123", JFalse), d')) as Hfirst by reflexivity.
  split; [exact Hfirst|].
  apply (@replayed_callback_fails literal_json demo_identity plain_platform
           params sample_db d' "did:plc:abc123" JFalse Hfirst).
Defined.

(** * Further properties of the code *)

(** ** auth.ts: the stores as key-value maps *)

Section TableMapFacts.
Implicit Types (k p : string) (t : Table) (r : Row).

Lemma table_map_cons r t :
  table_map (r :: t) = <[key r := payload r]> (table_map t).
Proof. reflexivity. Qed.

Lemma table_map_lookup k t : table_map t !! k = payload <$> selectTakeFirst k t.
Proof.
  unfold selectTakeFirst. induction t as [|r t IH]; [done|].
  rewrite table_map_cons, filter_cons.
  destruct (decide (key r = k)) as [<-|Hne].
  - by rewrite lookup_insert_eq.
  - by rewrite lookup_insert_ne.
Qed.

Lemma table_map_update k p t :
  table_map (doUpdateSet k p <$> t) =
  if decide (k ∈ key <$> t) then <[k := p]> (table_map t) else table_map t.
Proof.
  induction t as [|r t IH]; [done|].
  rewrite !fmap_cons, table_map_cons, IH, table_map_cons, doUpdateSet_key.
  unfold doUpdateSet. destruct (decide (key r = k)) as [<-|Hne]; cbn [payload].
  - rewrite (decide_True (P := key r ∈ key r :: _)) by apply list_elem_of_here.
    case_decide; by rewrite ?insert_insert_eq.
  - destruct (decide (k ∈ key <$> t)) as [Hin|Hnotin].
    + rewrite decide_True by (by apply list_elem_of_further).
      by rewrite insert_insert_ne.
    + rewrite decide_False; [done|].
      rewrite not_elem_of_cons. split; [congruence | done].
Qed.

Lemma table_map_append k p t :
  k ∉ key <$> t →
  table_map (t ++ [{| key := k; payload := p |}]) = <[k := p]> (table_map t).
Proof.
  induction t as [|r t IH]; [done|].
  rewrite fmap_cons, not_elem_of_cons. intros [Hne Hnotin].
  rewrite <- app_comm_cons, !table_map_cons, IH by done.
  by rewrite insert_insert_ne.
Qed.

Lemma table_map_insert k p t :
  table_map (insertOnConflictUpdate k p t) = <[k := p]> (table_map t).
Proof.
  unfold insertOnConflictUpdate.
  destruct (selectTakeFirst k t) as [r|] eqn:Hsel.
  - rewrite table_map_update. rewrite decide_True; [done|].
    apply select_Some_key in Hsel as [<- Hin]. apply list_elem_of_fmap. eauto.
  - apply table_map_append. by apply select_None_absent.
Qed.

Lemma table_map_delete k t : table_map (deleteWhere k t) = delete k (table_map t).
Proof.
  unfold deleteWhere. induction t as [|r t IH].
  - change (table_map (filter (λ r, key r ≠ k) [])) with (∅ : gmap string string).
    change (table_map []) with (∅ : gmap string string). by rewrite delete_empty.
  - rewrite filter_cons, table_map_cons.
    destruct (decide (key r ≠ k)) as [Hne|Heq].
    + by rewrite table_map_cons, IH, delete_insert_ne.
    + apply dec_stable in Heq as ->. by rewrite IH, delete_insert_eq.
Qed.

End TableMapFacts.

(** X1. Each table behaves as a finite map from keys to payloads: the
    select reads the map, the insert-on-conflict-update is the map's
    insertion, the delete is the map's deletion. *)
Theorem table_is_a_finite_map (k p : string) (t : Table) :
  payload <$> selectTakeFirst k t = table_map t !! k
  ∧ table_map (insertOnConflictUpdate k p t) = <[k := p]> (table_map t)
  ∧ table_map (deleteWhere k t) = delete k (table_map t).
Proof.
  split_and!;
    [symmetry; apply table_map_lookup | apply table_map_insert | apply table_map_delete].
Qed.

Section StoreAlgebra.
Context `{JSON}.
Implicit Types (k : string) (v : JsValue) (d : Database) (t : Table).

Lemma doUpdateSet_twice k p (r : Row) :
  doUpdateSet k p (doUpdateSet k p r) = doUpdateSet k p r.
Proof.
  unfold doUpdateSet. destruct (decide (key r = k)) as [Hk|Hk]; cbn.
  - by rewrite decide_True.
  - by rewrite decide_False.
Qed.

Lemma update_absent k p t : k ∉ key <$> t → doUpdateSet k p <$> t = t.
Proof.
  induction t as [|r t IH]; [done|].
  rewrite !fmap_cons, not_elem_of_cons. intros [Hne Hnotin].
  rewrite IH by done. unfold doUpdateSet. rewrite decide_False; [done | congruence].
Qed.

Lemma insert_same_again k p t :
  insertOnConflictUpdate k p (insertOnConflictUpdate k p t) = insertOnConflictUpdate k p t.
Proof.
  unfold insertOnConflictUpdate at 1. rewrite select_insert.
  unfold insertOnConflictUpdate.
  destruct (selectTakeFirst k t) as [r|] eqn:Hsel.
  - rewrite <- list_fmap_compose. apply list_fmap_ext.
    intros _ r' _. apply doUpdateSet_twice.
  - apply select_None_absent in Hsel.
    rewrite fmap_app, update_absent by done. cbn.
    unfold doUpdateSet. by rewrite decide_True.
Qed.

(** What [get] returns is decided by the map the table stands for. *)
Lemma StateStore_get_by_map k d d' :
  table_map (auth_state d) !! k = table_map (auth_state d') !! k →
  eval (get StateStore k) d = eval (get StateStore k) d'.
Proof.
  rewrite !table_map_lookup. intros Heq. unfold eval.
  rewrite !StateStore_get_run.
  destruct (selectTakeFirst k (auth_state d)) as [r|],
           (selectTakeFirst k (auth_state d')) as [r'|]; cbn in *; try done.
  injection Heq as ->. by destruct (JSON_parse (payload r')).
Qed.

Lemma SessionStore_get_by_map k d d' :
  table_map (auth_session d) !! k = table_map (auth_session d') !! k →
  eval (get SessionStore k) d = eval (get SessionStore k) d'.
Proof.
  rewrite !table_map_lookup. intros Heq. unfold eval.
  rewrite !SessionStore_get_run.
  destruct (selectTakeFirst k (auth_session d)) as [r|],
           (selectTakeFirst k (auth_session d')) as [r'|]; cbn in *; try done.
  injection Heq as ->. by destruct (JSON_parse (payload r')).
Qed.

End StoreAlgebra.

(** X2. In either store, after [set(k, v)] a [get(k)] returns [v], whatever
    the table held before, and a [get] of any other key returns what it
    returned before the [set]. *)
Theorem set_then_get `{JSON} `{!JSONRoundTrip}
    (k k' : string) (v : JsValue) (d : Database) :
  (eval (get StateStore k) (exec (set StateStore k v) d) = Returns (Some v)
   ∧ eval (get SessionStore k) (exec (set SessionStore k v) d) = Returns (Some v))
  ∧ (k' ≠ k →
       eval (get StateStore k') (exec (set StateStore k v) d) = eval (get StateStore k') d
       ∧ eval (get SessionStore k') (exec (set SessionStore k v) d)
         = eval (get SessionStore k') d).
Proof.
  unfold exec. rewrite StateStore_set_run, SessionStore_set_run. cbn [snd]. split.
  - unfold eval. rewrite StateStore_get_run, SessionStore_get_run. cbn.
    rewrite !select_insert. cbn. by rewrite json_round_trip.
  - intros Hne. split; [apply StateStore_get_by_map | apply SessionStore_get_by_map];
      cbn [auth_state auth_session replace_auth_state replace_auth_session];
      by rewrite table_map_insert, lookup_insert_ne.
Qed.

Lemma set_then_get_witness :
  eval (get (@StateStore literal_json) "flow-2")
       (exec (set (@StateStore literal_json) "flow-2" JNull) sample_db) = Returns (Some JNull)
  ∧ eval (get (@StateStore literal_json) "flow-1")
         (exec (set (@StateStore literal_json) "flow-2" JNull) sample_db) = Returns (Some JTrue).
Proof.
  assert (@JSONRoundTrip literal_json) as Hjson by (intros []; reflexivity).
  assert ("flow-1" ≠ "flow-2") as Hne by discriminate.
  pose proof (@set_then_get literal_json Hjson "flow-2" "flow-1" JNull sample_db)
    as [[Hsame _] Hother].
  split; [exact Hsame|]. rewrite (proj1 (Hother Hne)). reflexivity.
Defined.

(** X3. In either store, after [del(k)] a [get(k)] returns [undefined]
    without throwing, even if the deleted payload was not valid JSON, and a
    [get] of any other key returns what it returned before. *)
Theorem del_then_get `{JSON} (k k' : string) (d : Database) :
  (eval (get StateStore k) (exec (del StateStore k) d) = Returns None
   ∧ eval (get SessionStore k) (exec (del SessionStore k) d) = Returns None)
  ∧ (k' ≠ k →
       eval (get StateStore k') (exec (del StateStore k) d) = eval (get StateStore k') d
       ∧ eval (get SessionStore k') (exec (del SessionStore k) d)
         = eval (get SessionStore k') d).
Proof.
  unfold exec. rewrite StateStore_del_run, SessionStore_del_run. cbn [snd]. split.
  - unfold eval. rewrite StateStore_get_run, SessionStore_get_run. cbn.
    by rewrite !select_delete.
  - intros Hne. split; [apply StateStore_get_by_map | apply SessionStore_get_by_map];
      cbn [auth_state auth_session replace_auth_state replace_auth_session];
      by rewrite table_map_delete, lookup_delete_ne.
Qed.

Lemma del_then_get_witness :
  eval (get (@StateStore literal_json) "flow-1")
       (exec (del (@StateStore literal_json) "flow-2") sample_db) = Returns (Some JTrue).
Proof.
  assert ("flow-1" ≠ "flow-2") as Hne by discriminate.
  pose proof (@del_then_get literal_json "flow-2" "flow-1" sample_db) as [_ Hother].
  rewrite (proj1 (Hother Hne)). reflexivity.
Defined.

(** X4. In either store, [set(k, v)] done twice leaves the database exactly
    as [set(k, v)] done once: the same rows in the same order. *)
Theorem set_is_idempotent `{JSON} (k : string) (v : JsValue) (d : Database) :
  exec (set StateStore k v;; set StateStore k v) d = exec (set StateStore k v) d
  ∧ exec (set SessionStore k v;; set SessionStore k v) d = exec (set SessionStore k v) d.
Proof.
  unfold exec, mbind, async_bind.
  rewrite !StateStore_set_run, !SessionStore_set_run.
  unfold replace_auth_state, replace_auth_session. cbn.
  by rewrite !insert_same_again.
Qed.

(** X5. In either store, two [set]s on different keys can be done in
    either order: every [get] returns the same afterwards. *)
Theorem sets_on_distinct_keys_commute `{JSON}
    (k1 k2 k : string) (v1 v2 : JsValue) (d : Database) :
  k1 ≠ k2 →
  eval (get StateStore k) (exec (set StateStore k1 v1;; set StateStore k2 v2) d)
  = eval (get StateStore k) (exec (set StateStore k2 v2;; set StateStore k1 v1) d)
  ∧ eval (get SessionStore k) (exec (set SessionStore k1 v1;; set SessionStore k2 v2) d)
    = eval (get SessionStore k) (exec (set SessionStore k2 v2;; set SessionStore k1 v1) d).
Proof.
  intros Hne. unfold exec, mbind, async_bind.
  rewrite !StateStore_set_run, !SessionStore_set_run.
  split; [apply StateStore_get_by_map | apply SessionStore_get_by_map];
    cbn [snd auth_state auth_session replace_auth_state replace_auth_session];
    rewrite !table_map_insert; by rewrite insert_insert_ne.
Qed.

Lemma sets_on_distinct_keys_commute_witness :
  eval (get (@StateStore literal_json) "a")
       (exec (set (@StateStore literal_json) "a" JTrue;;
              set (@StateStore literal_json) "b" JFalse) sample_db)
  = eval (get (@StateStore literal_json) "a")
         (exec (set (@StateStore literal_json) "b" JFalse;;
                set (@StateStore literal_json) "a" JTrue) sample_db).
Proof.
  assert ("a" ≠ "b") as Hne by discriminate.
  apply (@sets_on_distinct_keys_commute literal_json "a" "b" "a" JTrue JFalse sample_db Hne).
Defined.

(** X7. Whatever sequence of store calls is made on the migrated database,
    no key ever has two rows in [auth_state] or in [auth_session]. *)
Theorem reachable_one_row_per_key `{JSON} (d : Database) (k : string) :
  reachable d →
  rows_for k (auth_state d) ≤ 1 ∧ rows_for k (auth_session d) ≤ 1.
Proof.
  intros [Hstate Hsession]%reachable_db_ok.
  split; by apply rows_for_primary_key.
Qed.

Lemma reachable_one_row_per_key_witness :
  let d := @after_call literal_json (@OnState_set literal_json "flow-1" JNull)
             (@after_call literal_json (@OnState_set literal_json "flow-1" JTrue)
                migrateToLatest) in
  auth_state d = [{| key := "flow-1"; payload := "null" |}]
  ∧ rows_for "flow-1" (auth_state d) ≤ 1.
Proof.
  intros d. split; [reflexivity|].
  apply (@reachable_one_row_per_key literal_json d "flow-1").
  unfold d. apply reachable_call, reachable_call, reachable_migrated.
Defined.

(** ** db.ts: the migration *)

Section CatalogFacts.
Implicit Types (name : string) (def : TableDef) (c : Catalog).

Lemma has_table_false name c :
  has_table name c = false ↔ Forall (λ def, ¬ names name def) c.
Proof.
  unfold has_table. rewrite bool_decide_eq_false. symmetry. apply Forall_Exists_neg.
Qed.

Lemma has_table_true name c : has_table name c = true ↔ Exists (names name) c.
Proof. unfold has_table. apply bool_decide_eq_true. Qed.

Lemma has_table_app name c c' :
  has_table name (c ++ c') = has_table name c || has_table name c'.
Proof.
  destruct (has_table name c) eqn:Hc; cbn.
  - apply has_table_true. apply Exists_app. left. by apply has_table_true.
  - destruct (has_table name c') eqn:Hc'.
    + apply has_table_true. apply Exists_app. right. by apply has_table_true.
    + apply has_table_false. apply Forall_app. split; by apply has_table_false.
Qed.

Lemma drop_missing name c :
  has_table name c = false → filter (λ def, ¬ names name def) c = c.
Proof.
  rewrite has_table_false. induction 1 as [|def c Hdef _ IH]; [done|].
  rewrite filter_cons_True by done. by rewrite IH.
Qed.

Lemma drop_removes name c : has_table name (filter (λ def, ¬ names name def) c) = false.
Proof.
  apply has_table_false. apply Forall_forall. intros def Hin.
  by apply list_elem_of_filter in Hin as [Hdef _].
Qed.

Lemma drop_keeps_missing name name' c :
  has_table name c = false → has_table name (filter (λ def, ¬ names name' def) c) = false.
Proof.
  rewrite !has_table_false, !Forall_forall. intros Hc def Hin.
  apply list_elem_of_filter in Hin as [_ Hin]. auto.
Qed.

Lemma createTable_fresh def c :
  has_table (table def) c = false → createTable def c = (Returns (), c ++ [def]).
Proof. intros Hfresh. unfold createTable. by rewrite Hfresh. Qed.

Lemma dropTable_last name def c :
  names name def → has_table name c = false →
  dropTable name (c ++ [def]) = (Returns (), c).
Proof.
  intros Hdef Hc. unfold dropTable.
  rewrite has_table_app, Hc. cbn [orb].
  replace (has_table name [def]) with true
    by (symmetry; apply has_table_true, Exists_cons_hd, Hdef).
  rewrite filter_app, drop_missing by done.
  rewrite filter_cons_False by (intros Hnot; by apply Hnot).
  by rewrite filter_nil, app_nil_r.
Qed.

Lemma up_returns c c' :
  up c = (Returns (), c') →
  has_table "auth_state" c = false ∧ c' = c ++ [auth_state_def; auth_session_def].
Proof.
  unfold up, mbind, async_bind, createTable. cbn [table auth_state_def auth_session_def].
  destruct (has_table "auth_state" c); [discriminate|].
  destruct (has_table "auth_session" (c ++ [auth_state_def])); [discriminate|].
  intros [= <-]. by rewrite <- app_assoc.
Qed.

Lemma down_returns c c' :
  down c = (Returns (), c') → has_table "auth_session" c' = false.
Proof.
  unfold down, mbind, async_bind, dropTable.
  destruct (has_table "auth_session" c); [|discriminate].
  destruct (has_table "auth_state" (filter _ c)); [|discriminate].
  intros [= <-]. apply drop_keeps_missing, drop_removes.
Qed.

End CatalogFacts.

(** X8. On a database that has neither table, the migration's [up]
    creates [auth_state] and then [auth_session], and [down] after it gives
    back exactly the schema [up] started from. *)
Theorem up_then_down_restores (c : Catalog) :
  has_table "auth_state" c = false →
  has_table "auth_session" c = false →
  up c = (Returns (), c ++ [auth_state_def; auth_session_def])
  ∧ (up;; down) c = (Returns (), c).
Proof.
  intros Hstate Hsession.
  assert (up c = (Returns (), c ++ [auth_state_def; auth_session_def])) as Hup.
  { unfold up, mbind, async_bind.
    rewrite (createTable_fresh auth_state_def c) by done.
    rewrite createTable_fresh; [by rewrite <- app_assoc|].
    cbn [table auth_session_def]. rewrite has_table_app, Hsession. reflexivity. }
  split; [exact Hup|].
  unfold mbind at 1. unfold async_bind at 1. rewrite Hup.
  unfold down, mbind, async_bind.
  change (c ++ [auth_state_def; auth_session_def])
    with (c ++ [auth_state_def] ++ [auth_session_def]).
  rewrite app_assoc.
  rewrite (dropTable_last "auth_session" auth_session_def); [|reflexivity|].
  - by rewrite (dropTable_last "auth_state" auth_state_def).
  - rewrite has_table_app, Hsession. reflexivity.
Qed.

Lemma up_then_down_restores_witness :
  (up;; down) other_catalog = (Returns (), other_catalog).
Proof.
  apply (up_then_down_restores other_catalog); reflexivity.
Defined.

(** X9. Neither direction of the migration can be run twice in a row: once
    [up] has returned, a second [up] throws at its first statement and
    changes nothing, and likewise a second [down] after a [down]. *)
Theorem migration_does_not_rerun (c c' : Catalog) :
  (up c = (Returns (), c') → ∃ e, up c' = (Throws e, c'))
  ∧ (down c = (Returns (), c') → ∃ e, down c' = (Throws e, c')).
Proof.
  split.
  - intros [_ ->]%up_returns. unfold up, mbind, async_bind, createTable.
    cbn [table auth_state_def].
    replace (has_table "auth_state" (c ++ [auth_state_def; auth_session_def])) with true;
      [eauto|].
    symmetry. rewrite has_table_app. apply orb_true_iff. right. reflexivity.
  - intros Hmissing%down_returns. unfold down, mbind, async_bind, dropTable.
    rewrite Hmissing. eauto.
Qed.

Lemma migration_does_not_rerun_witness :
  ∃ e, up [auth_state_def; auth_session_def] = (Throws e, [auth_state_def; auth_session_def]).
Proof.
  apply (proj1 (migration_does_not_rerun [] [auth_state_def; auth_session_def])).
  reflexivity.
Defined.

(** ** index.ts: the query string of the callback *)

Section SplitFacts.
Implicit Types (sep c : ascii) (s : string).

Lemma split_not_nil sep s : split sep s ≠ [].
Proof.
  destruct s as [|c rest]; cbn [split]; [done|].
  case_decide; [done|]. by destruct (split sep rest).
Qed.

Lemma split_without sep s : occurs sep s = false → split sep s = [s].
Proof.
  induction s as [|c rest IH]; cbn [occurs split]; [done|].
  intros [Hc Hrest]%orb_false_iff. apply bool_decide_eq_false in Hc.
  rewrite decide_False by done. by rewrite IH.
Qed.

Lemma split_at_first sep s rest :
  occurs sep s = false → split sep (s +:+ String sep rest) = s :: split sep rest.
Proof.
  induction s as [|c s' IH]; simpl.
  - intros _. by rewrite decide_True.
  - intros [Hc Hrest]%orb_false_iff. apply bool_decide_eq_false in Hc.
    rewrite decide_False by done. by rewrite IH.
Qed.

Lemma join_cons sepS piece pieces :
  pieces ≠ [] → join sepS (piece :: pieces) = piece +:+ sepS +:+ join sepS pieces.
Proof. by destruct pieces. Qed.

Lemma get_oauth_callback_calls {client : NodeOAuthClient} {platform : Platform}
    (env : ProcessEnv) (req : Request) (w : World) :
  calls (exec (get_oauth_callback env req) w)
  = calls w ++ [CallCallback (newURLSearchParams (split "?" (originalUrl req) !! 1))].
Proof.
  unfold exec, get_oauth_callback, try_catch.
  unfold mbind at 1. unfold async_bind at 1.
  unfold oauthClient_callback, on_db, mbind, async_bind. cbn [modify with_call db].
  destruct (callback _ (db w)) as [[oauthSession|e] d']; cbn; [|done].
  by destruct (getIronSession req "sid" (cookieSecret env)).
Qed.

End SplitFacts.

(** X10. Splitting a string at a character loses nothing: the pieces,
    joined with that character, give the string back, and no piece contains
    the character. *)
Theorem split_then_join (sep : ascii) (s : string) :
  join (String sep EmptyString) (split sep s) = s
  ∧ Forall (λ piece, occurs sep piece = false) (split sep s).
Proof.
  induction s as [|c rest [IHjoin IHpieces]]; cbn [split].
  - split; [done | by repeat constructor].
  - destruct (decide (c = sep)) as [->|Hne].
    + split; [|by constructor].
      rewrite join_cons by apply split_not_nil. cbn. by rewrite IHjoin.
    + destruct (split sep rest) as [|piece pieces] eqn:Hsplit.
      { by apply split_not_nil in Hsplit. }
      apply Forall_cons in IHpieces as [Hpiece Hpieces]. split.
      * rewrite <- IHjoin. by destruct pieces.
      * constructor; [|done]. cbn. rewrite Hpiece.
        by rewrite bool_decide_eq_false_2.
Qed.

(** X11. [GET /oauth/callback] hands to [callback] the parameters of the
    text between the first and the second [?] of the URL: a URL with no [?]
    gives the parameters of [undefined], and whatever follows a second [?]
    is dropped. *)
Theorem callback_reads_first_query {client : NodeOAuthClient} {platform : Platform}
    (env : ProcessEnv) (req : Request) (w : World) (path q rest : string) :
  occurs "?" path = false →
  occurs "?" q = false →
  let called := calls (exec (get_oauth_callback env req) w) in
  (originalUrl req = path → called = calls w ++ [CallCallback (newURLSearchParams None)])
  ∧ (originalUrl req = path +:+ "?" +:+ q →
       called = calls w ++ [CallCallback (newURLSearchParams (Some q))])
  ∧ (originalUrl req = path +:+ "?" +:+ q +:+ "?" +:+ rest →
       called = calls w ++ [CallCallback (newURLSearchParams (Some q))]).
Proof.
  intros Hpath Hq called. unfold called. rewrite get_oauth_callback_calls.
  split_and!; intros ->.
  - by rewrite split_without.
  - change ("?" +:+ q) with (String "?" q).
    by rewrite split_at_first, split_without.
  - change ("?" +:+ q +:+ "?" +:+ rest) with (String "?" (q +:+ String "?" rest)).
    by rewrite split_at_first, split_at_first.
Qed.

Lemma callback_reads_first_query_witness :
  calls (exec (@get_oauth_callback demo_client plain_platform no_env double_query_request)
              (arrive sample_db))
  = [CallCallback [("state", "flow-1")]].
Proof.
  exact (proj2 (proj2 (@callback_reads_first_query demo_client plain_platform no_env
                         double_query_request (arrive sample_db)
                         "/oauth/callback" "state=flow-1" "code=x" eq_refl eq_refl))
               eq_refl).
Defined.

(** ** index.ts: the authentication routes, beyond the error paths *)

Section LoginFacts.
Context {client : NodeOAuthClient}.
Implicit Types (req : Request) (w : World).

(** The two ways [POST /login] ends once it has a handle. *)
Lemma post_login_redirected req w url d' :
  truthy (body_field "handle" req) = true →
  authorize (body_field "handle" req) (db w) = (Returns url, d') →
  post_login req w =
    (Returns (),
     exec (redirect url)
       (with_db (λ _, d') (with_call (CallAuthorize (body_field "handle" req)) w))).
Proof.
  intros Htruthy Hauthorize. unfold post_login. rewrite Htruthy. cbn [negb].
  unfold try_catch, mbind, async_bind, oauthClient_authorize, on_db, mbind, async_bind.
  cbn [modify with_call db]. by rewrite Hauthorize.
Qed.

Lemma post_login_failed req w e d' :
  truthy (body_field "handle" req) = true →
  authorize (body_field "handle" req) (db w) = (Throws e, d') →
  post_login req w =
    (Returns (),
     exec (console_error "OAuth authorize failed:" (ArgString (message_of e));;
           status 500;; send (login_failed_page (message_of e)))
       (with_db (λ _, d') (with_call (CallAuthorize (body_field "handle" req)) w))).
Proof.
  intros Htruthy Hauthorize. unfold post_login. rewrite Htruthy. cbn [negb].
  unfold try_catch. unfold mbind at 1. unfold async_bind at 1.
  unfold oauthClient_authorize, on_db. unfold mbind at 1. unfold async_bind at 1.
  cbn [modify with_call db]. rewrite Hauthorize. by destruct e.
Qed.

End LoginFacts.

(** X12. [POST /login] never throws and always answers: 400 when the
    handle is missing, a 302 redirect when [authorize] returns, 500 when it
    throws. *)
Theorem post_login_always_answers {client : NodeOAuthClient} (req : Request) (w : World) :
  let w' := exec (post_login req) w in
  eval (post_login req) w = Returns ()
  ∧ (statusCode (res w') = 400 ∧ is_Some (sent (res w'))
     ∨ statusCode (res w') = 302 ∧ is_Some (location (res w'))
     ∨ statusCode (res w') = 500 ∧ is_Some (sent (res w'))).
Proof.
  intros w'. unfold w', eval, exec.
  destruct (truthy (body_field "handle" req)) eqn:Htruthy.
  - destruct (authorize (body_field "handle" req) (db w)) as [[url|e] d'] eqn:Hauthorize.
    + rewrite (post_login_redirected req w url d') by done.
      split; [done|]. right; left. cbn. eauto.
    + rewrite (post_login_failed req w e d') by done.
      split; [done|]. right; right. cbn. eauto.
  - unfold post_login. rewrite Htruthy. split; [done|]. left. cbn. eauto.
Qed.

(** X13. With a handle in the body, [POST /login] calls [authorize] once,
    with the handle as submitted.  If that returns a URL the browser is
    redirected to it; if it throws, the answer is 500 with a page showing
    the error's message ("Unknown error" for a thrown non-error), and no
    redirect.  Either way the database is as [authorize] left it. *)
Theorem post_login_follows_authorize {client : NodeOAuthClient} (req : Request) (w : World) :
  let handle := body_field "handle" req in
  let w' := exec (post_login req) w in
  truthy handle = true →
  calls w' = calls w ++ [CallAuthorize handle]
  ∧ (∀ url d', authorize handle (db w) = (Returns url, d') →
       statusCode (res w') = 302 ∧ location (res w') = Some url
       ∧ sent (res w') = sent (res w) ∧ db w' = d')
  ∧ (∀ e d', authorize handle (db w) = (Throws e, d') →
       statusCode (res w') = 500
       ∧ sent (res w') = Some (login_failed_page (message_of e))
       ∧ location (res w') = location (res w) ∧ db w' = d').
Proof.
  intros handle w' Htruthy. unfold w', exec, handle in *.
  destruct (authorize (body_field "handle" req) (db w)) as [[url|e] d'] eqn:Hauthorize.
  - rewrite (post_login_redirected req w url d') by done.
    split_and!; [done | by intros ? ? [= <- <-] | by intros ? ? [=]].
  - rewrite (post_login_failed req w e d') by done.
    split_and!; [done | by intros ? ? [=] | by intros ? ? [= <- <-]].
Qed.

Lemma post_login_follows_authorize_witness :
  let w' := exec (@post_login demo_client login_request) (arrive migrateToLatest) in
  location (res w') = Some "https://pds.example/authorize?state=flow-1"
  ∧ auth_state (db w') = [{| key := "flow-1"; payload := "true" |}].
Proof.
  pose proof (@post_login_follows_authorize demo_client login_request
                (arrive migrateToLatest) eq_refl) as (_ & Hreturns & _).
  specialize (Hreturns "https://pds.example/authorize?state=flow-1"
                {| auth_state := [{| key := "flow-1"; payload := "true" |}];
                   auth_session := [] |} eq_refl) as (_ & Hlocation & _ & Hdb).
  split; [exact Hlocation | by rewrite Hdb].
Defined.

Section CallbackFacts.
Context {client : NodeOAuthClient} {platform : Platform}.
Implicit Types (env : ProcessEnv) (req : Request) (w : World).

(** [GET /oauth/callback] once [callback] has returned. *)
Lemma get_oauth_callback_returned env req w oauthSession d' :
  callback (newURLSearchParams (split "?" (originalUrl req) !! 1)) (db w)
    = (Returns oauthSession, d') →
  let w1 := with_db (λ _, d')
              (with_call (CallCallback
                            (newURLSearchParams (split "?" (originalUrl req) !! 1))) w) in
  get_oauth_callback env req w =
    match getIronSession req "sid" (cookieSecret env) with
    | Returns _ =>
        (Returns (),
         exec (session_save {| did := Some (OAuthSession.did oauthSession) |};;
               redirect "/") w1)
    | Throws e =>
        (Returns (),
         exec (console_error "OAuth callback failed:" (ArgThrown e);;
               status 500;; send callback_failed_page) w1)
    end.
Proof.
  intros Hcallback w1. unfold get_oauth_callback, try_catch.
  unfold mbind at 1. unfold async_bind at 1.
  unfold oauthClient_callback, on_db. unfold mbind at 1. unfold async_bind at 1.
  cbn [modify with_call db]. rewrite Hcallback.
  unfold mbind at 1. unfold async_bind at 1. rewrite getSession_run.
  by destruct (getIronSession req "sid" (cookieSecret env)).
Qed.

End CallbackFacts.

(** X14. [GET /oauth/callback] never throws and always answers, with a 302
    or a 500.  When [callback] returns a session and the cookie library
    works, the answer is a redirect to [/] with a cookie sealing exactly
    the subject of that session. *)
Theorem get_oauth_callback_binds_subject {client : NodeOAuthClient} {platform : Platform}
    (env : ProcessEnv) (req : Request) (w : World) :
  let params := newURLSearchParams (split "?" (originalUrl req) !! 1) in
  let w' := exec (get_oauth_callback env req) w in
  eval (get_oauth_callback env req) w = Returns ()
  ∧ (statusCode (res w') = 302 ∨ statusCode (res w') = 500)
  ∧ (∀ oauthSession d' session,
       callback params (db w) = (Returns oauthSession, d') →
       getIronSession req "sid" (cookieSecret env) = Returns session →
       statusCode (res w') = 302 ∧ location (res w') = Some "/"
       ∧ set_cookie (res w') = Some (Sealed {| did := Some (OAuthSession.did oauthSession) |})
       ∧ db w' = d').
Proof.
  intros params w'. unfold w', eval, exec.
  destruct (callback params (db w)) as [[oauthSession|e] d'] eqn:Hcallback.
  - rewrite (get_oauth_callback_returned env req w oauthSession d') by done.
    destruct (getIronSession req "sid" (cookieSecret env)) as [session|e] eqn:Hsession.
    + split_and!; [done | by left |]. by intros ? ? ? [= <- <-] _.
    + split_and!; [done | by right |]. by intros ? ? ? _ [=].
  - rewrite (get_oauth_callback_failed env req w e d') by done.
    split_and!; [done | by right |]. by intros ? ? ? [=].
Qed.

Lemma get_oauth_callback_binds_subject_witness :
  let w' := exec (@get_oauth_callback demo_client plain_platform no_env callback_request)
                 (arrive sample_db) in
  set_cookie (res w') = Some (Sealed {| did := Some "did:plc:abc123" |})
  ∧ location (res w') = Some "/".
Proof.
  pose proof (@get_oauth_callback_binds_subject demo_client plain_platform no_env
                callback_request (arrive sample_db)) as (_ & _ & Hbinds).
  specialize (Hbinds {| OAuthSession.did := "did:plc:abc123" |}
                {| auth_state := [];
                   auth_session := [{| key := "did:plc:abc123"; payload := "false" |}] |}
                {| did := None |} eq_refl eq_refl) as (_ & Hlocation & Hcookie & _).
  split; [exact Hcookie | exact Hlocation].
Defined.

(** X15. When [callback] returns but reading the session cookie then
    throws, [GET /oauth/callback] answers 500 and sets no cookie, yet the
    database stays as [callback] left it: what [callback] stored is not
    rolled back. *)
Theorem get_oauth_callback_keeps_stored_session
    {client : NodeOAuthClient} {platform : Platform}
    (env : ProcessEnv) (req : Request) (w : World)
    (oauthSession : OAuthSession.t) (d' : Database) (e : Thrown) :
  callback (newURLSearchParams (split "?" (originalUrl req) !! 1)) (db w)
    = (Returns oauthSession, d') →
  getIronSession req "sid" (cookieSecret env) = Throws e →
  let w' := exec (get_oauth_callback env req) w in
  statusCode (res w') = 500
  ∧ sent (res w') = Some callback_failed_page
  ∧ set_cookie (res w') = set_cookie (res w)
  ∧ db w' = d'.
Proof.
  intros Hcallback Hsession w'. unfold w', exec.
  rewrite (get_oauth_callback_returned env req w oauthSession d') by done.
  by rewrite Hsession.
Qed.

Lemma get_oauth_callback_keeps_stored_session_witness :
  let w' := exec (@get_oauth_callback demo_client broken_platform no_env callback_request)
                 (arrive sample_db) in
  statusCode (res w') = 500
  ∧ set_cookie (res w') = None
  ∧ db w' = {| auth_state := [];
               auth_session := [{| key := "did:plc:abc123"; payload := "false" |}] |}.
Proof.
  pose proof (@get_oauth_callback_keeps_stored_session demo_client broken_platform no_env
                callback_request (arrive sample_db)
                {| OAuthSession.did := "did:plc:abc123" |}
                {| auth_state := [];
                   auth_session := [{| key := "did:plc:abc123"; payload := "false" |}] |}
                (ErrorInstance "Error" "iron-session: Bad usage") eq_refl eq_refl)
    as (Hstatus & _ & Hcookie & Hdb).
  split_and!; [exact Hstatus | exact Hcookie | exact Hdb].
Defined.

(** X16. [getSessionAgent] yields an agent only for a cookie bound to a
    non-empty subject for which [restore] returned a session, and the agent
    is built on that very session; it then writes no cookie.  It calls
    [restore] at most once, and only with the cookie's subject. *)
Theorem getSessionAgent_agent_is_the_restored_session
    {client : NodeOAuthClient} {platform : Platform}
    (env : ProcessEnv) (req : Request) (w : World) (agent : Agent) :
  eval (getSessionAgent env req) w = Returns (Some agent) →
  let w' := exec (getSessionAgent env req) w in
  ∃ session sub oauthSession d',
    getIronSession req "sid" (cookieSecret env) = Returns session
    ∧ did session = Some sub ∧ sub ≠ EmptyString
    ∧ restore sub (db w) = (Returns (Some oauthSession), d')
    ∧ agent = NewAgent oauthSession
    ∧ res w' = res w
    ∧ calls w' = calls w ++ [CallRestore sub]
    ∧ db w' = d'.
Proof.
  unfold eval, exec.
  destruct (getIronSession req "sid" (cookieSecret env)) as [session|e] eqn:Hsession.
  - destruct (did session) as [[|c s]|] eqn:Hdid.
    + rewrite (getSessionAgent_anonymous env req w session) by (by rewrite ?Hdid). done.
    + assert (String c s ≠ EmptyString) as Hsub by done.
      destruct (restore (String c s) (db w)) as [[found|e] d'] eqn:Hrestore.
      * rewrite (getSessionAgent_restored env req w session (String c s) found d') by done.
        destruct found as [oauthSession|]; [|done].
        intros [= <-]. by exists session, (String c s), oauthSession, d'.
      * rewrite (getSessionAgent_failed env req w session (String c s) e d') by done. done.
    + rewrite (getSessionAgent_anonymous env req w session) by (by rewrite ?Hdid). done.
  - unfold getSessionAgent, mbind, async_bind. rewrite getSession_run, Hsession. done.
Qed.

Lemma getSessionAgent_agent_is_the_restored_session_witness :
  ∃ sub, calls (exec (@getSessionAgent demo_client plain_platform no_env bound_request)
                     (arrive sample_db)) = [CallRestore sub].
Proof.
  destruct (@getSessionAgent_agent_is_the_restored_session demo_client plain_platform no_env
              bound_request (arrive sample_db)
              (NewAgent {| OAuthSession.did := "did:plc:abc123" |}) eq_refl)
    as (_ & sub & _ & _ & _ & _ & _ & _ & _ & _ & Hcalls & _).
  exists sub. exact Hcalls.
Defined.

(** ** index.ts: the routes behind the login *)

Example demo_home_page :
  sent (res (world (exec (@get_home demo_client plain_platform nat_numbers demo_repository
                            no_env bound_request) (visit sample_db))))
  = Some (home_page demo_profile "<li><strong>undefined</strong>: hello</li>").
Proof. vm_compute. reflexivity. Qed.

Example demo_recipe_lines :
  repo_calls (exec (@post_recipe demo_client plain_platform nat_numbers demo_repository
                      demo_builtins no_env recipe_request) (visit sample_db))
  = [RepoPutRecord
       {| put_repo := "did:plc:abc123"; put_collection := "com.myrecipes.recipe";
          put_rkey := "3jzfcijpj2z2a";
          put_record := {| new_type := "com.myrecipes.recipe"; new_title := FString "Bread";
                           new_ingredients := ["flour"; "water"]; new_steps := ["Bake"];
                           new_createdAt := "2026-01-01T00:00:00.000Z" |} |}].
Proof. vm_compute. reflexivity. Qed.

Section SiteFacts.
Context {client : NodeOAuthClient} {platform : Platform}.
Context `{repository_client : RepositoryClient} {builtins : Builtins}.
Implicit Types (env : ProcessEnv) (req : Request) (s : Site) (w : World).

Lemma on_world_run {A} (m : Async World A) s o w :
  m (world s) = (o, w) → on_world m s = (o, {| world := w; repo_calls := repo_calls s |}).
Proof. intros Hm. unfold on_world. by rewrite Hm. Qed.

Lemma repository_run {A} (c : RepoCall) (m : Async Database A) s o d :
  m (db (world s)) = (o, d) →
  repository c m s =
    (o, {| world := with_db (λ _, d) (world s); repo_calls := repo_calls s ++ [c] |}).
Proof. intros Hm. unfold repository. by rewrite Hm. Qed.

(** The routes once they have an agent. *)
Lemma post_post_with_agent env req s agent w1 :
  getSessionAgent env req (world s) = (Returns (Some agent), w1) →
  post_post env req s =
    (if negb (truthy (body_field "text" req)) then
       on_world (status 400;; send "Post text is required")
     else
       repository (RepoPost (body_field "text" req))
         (agent_post agent (body_field "text" req));;
       on_world (redirect "/"))
      {| world := w1; repo_calls := repo_calls s |}.
Proof.
  intros Hagent. unfold post_post. unfold mbind at 1. unfold async_bind at 1.
  by rewrite (on_world_run _ s _ _ Hagent).
Qed.

Lemma get_recipes_with_agent env req s agent w1 :
  getSessionAgent env req (world s) = (Returns (Some agent), w1) →
  get_recipes env req s =
    (records ← repository (RepoListRecords (assertDid agent) RECIPE_COLLECTION 20)
                 (agent_listRecords agent (assertDid agent) RECIPE_COLLECTION 20);
     on_world (send (recipes_page
                       match records with
                       | [] => "<p>No recipes yet. Go add one!</p>"
                       | _ => join EmptyString (render_recipe <$> records)
                       end)))
      {| world := w1; repo_calls := repo_calls s |}.
Proof.
  intros Hagent. unfold get_recipes. unfold mbind at 1. unfold async_bind at 1.
  by rewrite (on_world_run _ s _ _ Hagent).
Qed.

Lemma get_home_with_agent env req s agent w1 :
  getSessionAgent env req (world s) = (Returns (Some agent), w1) →
  get_home env req s =
    (profile ← repository (RepoGetProfile (assertDid agent))
                 (agent_getProfile agent (assertDid agent));
     feed ← repository (RepoGetAuthorFeed (assertDid agent) 5)
              (agent_getAuthorFeed agent (assertDid agent) 5);
     on_world (send (home_page profile
                       (join (String newline EmptyString) (render_post <$> feed)))))
      {| world := w1; repo_calls := repo_calls s |}.
Proof.
  intros Hagent. unfold get_home. unfold mbind at 1. unfold async_bind at 1.
  by rewrite (on_world_run _ s _ _ Hagent).
Qed.

Lemma post_recipe_with_agent env req s agent w1 :
  getSessionAgent env req (world s) = (Returns (Some agent), w1) →
  post_recipe env req s =
    match body req with
    | None =>
        throw (TypeError
                 "Cannot destructure property 'title' of 'req.body' as it is undefined.")
    | Some fields =>
        let title := default FUndefined (assoc "title" fields) in
        let ingredients := default FUndefined (assoc "ingredients" fields) in
        let steps := default FUndefined (assoc "steps" fields) in
        if negb (truthy title) || negb (truthy ingredients) || negb (truthy steps) then
          on_world (status 400;; send "Title, ingredients, and steps are required")
        else
          ingredient_lines ← await (nonblank_lines "ingredients" ingredients);
          step_lines ← await (nonblank_lines "steps" steps);
          let input :=
            {| put_repo := assertDid agent;
               put_collection := RECIPE_COLLECTION;
               put_rkey := TID_nextStr;
               put_record := {| new_type := RECIPE_COLLECTION;
                                new_title := title;
                                new_ingredients := ingredient_lines;
                                new_steps := step_lines;
                                new_createdAt := Date_toISOString |} |} in
          repository (RepoPutRecord input) (agent_putRecord agent input);;
          on_world (redirect "/recipes")
    end {| world := w1; repo_calls := repo_calls s |}.
Proof.
  intros Hagent. unfold post_recipe. unfold mbind at 1. unfold async_bind at 1.
  by rewrite (on_world_run _ s _ _ Hagent).
Qed.

(** [POST /recipe] once it has an agent and a body with three strings that
    pass the check. *)
Lemma post_recipe_writes env req s agent w1 fields title i st :
  getSessionAgent env req (world s) = (Returns (Some agent), w1) →
  body req = Some fields →
  assoc "title" fields = Some title → truthy title = true →
  assoc "ingredients" fields = Some (FString i) → i ≠ EmptyString →
  assoc "steps" fields = Some (FString st) → st ≠ EmptyString →
  let input :=
    {| put_repo := assertDid agent;
       put_collection := RECIPE_COLLECTION;
       put_rkey := TID_nextStr;
       put_record :=
         {| new_type := RECIPE_COLLECTION;
            new_title := title;
            new_ingredients := filter (λ line, trim line ≠ EmptyString) (split newline i);
            new_steps := filter (λ line, trim line ≠ EmptyString) (split newline st);
            new_createdAt := Date_toISOString |} |} in
  post_recipe env req s =
    (repository (RepoPutRecord input) (agent_putRecord agent input);;
     on_world (redirect "/recipes"))
      {| world := w1; repo_calls := repo_calls s |}.
Proof.
  intros Hagent Hbody Htitle Htruthy Hingredients Hi Hsteps Hst input.
  unfold post_recipe. unfold mbind at 1. unfold async_bind at 1.
  rewrite (on_world_run _ s _ _ Hagent), Hbody, Htitle, Hingredients, Hsteps.
  cbn [default from_option id]. rewrite Htruthy.
  destruct i as [|ci i']; [done|]. destruct st as [|cs st']; [done|].
  reflexivity.
Qed.

End SiteFacts.

(** X17. Without an agent no route behind the login touches the
    repository: [POST /post], [POST /recipe] and [GET /recipes] redirect to
    [/login], and [GET /] sends the landing page. *)
Theorem routes_need_an_agent {client : NodeOAuthClient} {platform : Platform}
    `{repository_client : RepositoryClient} {builtins : Builtins}
    (env : ProcessEnv) (req : Request) (s : Site) (w1 : World) :
  getSessionAgent env req (world s) = (Returns None, w1) →
  let to_login := {| world := exec (redirect "/login") w1; repo_calls := repo_calls s |} in
  post_post env req s = (Returns (), to_login)
  ∧ post_recipe env req s = (Returns (), to_login)
  ∧ get_recipes env req s = (Returns (), to_login)
  ∧ get_home env req s =
      (Returns (), {| world := exec (send landing_page) w1; repo_calls := repo_calls s |}).
Proof.
  intros Hagent to_login.
  unfold post_post, post_recipe, get_recipes, get_home, mbind, async_bind.
  by rewrite (on_world_run _ s _ _ Hagent).
Qed.

Lemma routes_need_an_agent_witness :
  @get_recipes demo_client plain_platform nat_numbers demo_repository no_env
    anonymous_request (visit sample_db)
  = (Returns (),
     {| world := exec (redirect "/login") (arrive sample_db); repo_calls := [] |}).
Proof.
  apply (@routes_need_an_agent demo_client plain_platform nat_numbers demo_repository
           demo_builtins no_env anonymous_request (visit sample_db) (arrive sample_db)
           eq_refl).
Defined.

(** X18. With an agent, [POST /post] answers 400 "Post text is required"
    and posts nothing when the body has no text or an empty one; otherwise
    it posts the text as submitted, once, and when that returns it
    redirects to [/]. *)
Theorem post_post_posts_the_text {client : NodeOAuthClient} {platform : Platform}
    `{repository_client : RepositoryClient}
    (env : ProcessEnv) (req : Request) (s : Site) (agent : Agent) (w1 : World) :
  getSessionAgent env req (world s) = (Returns (Some agent), w1) →
  let text := body_field "text" req in
  (truthy text = false →
     post_post env req s =
       (Returns (),
        {| world := exec (status 400;; send "Post text is required") w1;
           repo_calls := repo_calls s |}))
  ∧ (truthy text = true →
       repo_calls (exec (post_post env req) s) = repo_calls s ++ [RepoPost text]
       ∧ ∀ d', agent_post agent text (db w1) = (Returns (), d') →
           post_post env req s =
             (Returns (),
              {| world := exec (redirect "/") (with_db (λ _, d') w1);
                 repo_calls := repo_calls s ++ [RepoPost text] |})).
Proof.
  intros Hagent text. unfold exec.
  rewrite (post_post_with_agent env req s agent w1 Hagent). fold text.
  split; intros ->; cbn [negb].
  - reflexivity.
  - unfold mbind, async_bind, repository. cbn [world db repo_calls].
    destruct (agent_post agent text (db w1)) as [[[]|e] d0]; cbn.
    + split; [done|]. by intros d' [= <-].
    + split; [done|]. by intros d' [=].
Qed.

Lemma post_post_posts_the_text_witness :
  @post_post demo_client plain_platform nat_numbers demo_repository no_env
    post_request (visit sample_db)
  = (Returns (),
     {| world := exec (redirect "/")
                   (with_call (CallRestore "did:plc:abc123") (arrive sample_db));
        repo_calls := [RepoPost (FString "hello")] |}).
Proof.
  pose proof (@post_post_posts_the_text demo_client plain_platform nat_numbers
                demo_repository no_env post_request (visit sample_db) demo_agent
                (with_call (CallRestore "did:plc:abc123") (arrive sample_db)) eq_refl)
    as [_ Hposts].
  destruct (Hposts eq_refl) as [_ Hreturns].
  apply (Hreturns sample_db eq_refl).
Defined.

(** X19. With an agent and a title, ingredients and steps that are
    non-empty strings, [POST /recipe] makes one repository call: a
    [putRecord] into the agent's own repository, in the recipe collection,
    with the title as submitted.  The ingredients and the steps it writes
    are exactly the lines of the submitted text that [trim] does not empty:
    each as often as it occurs, in their order. *)
Theorem post_recipe_writes_nonblank_lines {client : NodeOAuthClient} {platform : Platform}
    `{repository_client : RepositoryClient} {builtins : Builtins}
    (env : ProcessEnv) (req : Request) (s : Site) (agent : Agent) (w1 : World)
    (fields : list (string * FormValue)) (title : FormValue) (i st : string) :
  getSessionAgent env req (world s) = (Returns (Some agent), w1) →
  body req = Some fields →
  assoc "title" fields = Some title → truthy title = true →
  assoc "ingredients" fields = Some (FString i) → i ≠ EmptyString →
  assoc "steps" fields = Some (FString st) → st ≠ EmptyString →
  ∃ input,
    repo_calls (exec (post_recipe env req) s) = repo_calls s ++ [RepoPutRecord input]
    ∧ put_repo input = assertDid agent
    ∧ put_collection input = RECIPE_COLLECTION
    ∧ new_type (put_record input) = RECIPE_COLLECTION
    ∧ new_title (put_record input) = title
    ∧ new_ingredients (put_record input)
      = filter (λ line, trim line ≠ EmptyString) (split newline i)
    ∧ new_steps (put_record input)
      = filter (λ line, trim line ≠ EmptyString) (split newline st)
    ∧ (∀ line, line ∈ new_ingredients (put_record input)
               ↔ line ∈ split newline i ∧ trim line ≠ EmptyString)
    ∧ new_ingredients (put_record input) `sublist_of` split newline i
    ∧ (∀ line, line ∈ new_steps (put_record input)
               ↔ line ∈ split newline st ∧ trim line ≠ EmptyString)
    ∧ new_steps (put_record input) `sublist_of` split newline st.
Proof.
  intros Hagent Hbody Htitle Htruthy Hingredients Hi Hsteps Hst.
  eexists. unfold exec.
  rewrite (post_recipe_writes env req s agent w1 fields title i st) by done.
  split.
  { unfold mbind, async_bind, repository. cbn [world db repo_calls].
    by destruct (agent_putRecord agent _ (db w1)) as [[[]|e] d0]. }
  cbn [put_repo put_collection put_record new_type new_title new_ingredients new_steps].
  split_and!; try done.
  - intros line. rewrite list_elem_of_filter. tauto.
  - apply sublist_filter.
  - intros line. rewrite list_elem_of_filter. tauto.
  - apply sublist_filter.
Qed.

Lemma post_recipe_writes_nonblank_lines_witness :
  ∃ input,
    repo_calls (exec (@post_recipe demo_client plain_platform nat_numbers demo_repository
                        demo_builtins no_env recipe_request) (visit sample_db))
    = [RepoPutRecord input]
    ∧ put_repo input = "did:plc:abc123".
Proof.
  assert ("flour" +:+ String newline (" " +:+ String newline "water") ≠ EmptyString)
    as Hi by discriminate.
  assert ("Bake" ≠ EmptyString) as Hst by discriminate.
  destruct (@post_recipe_writes_nonblank_lines demo_client plain_platform nat_numbers
              demo_repository demo_builtins no_env recipe_request (visit sample_db)
              demo_agent (with_call (CallRestore "did:plc:abc123") (arrive sample_db))
              _ (FString "Bread") _ "Bake" eq_refl eq_refl eq_refl eq_refl eq_refl Hi
              eq_refl Hst)
    as (input & Hcalls & Hrepo & _).
  exists input. split; [exact Hcalls | exact Hrepo].
Defined.

(** X20. The check of [POST /recipe] looks at the raw text only: when the
    ingredients are a non-empty string all of whose lines [trim] empties,
    the request is not refused and the record is written with an empty list
    of ingredients. *)
Theorem post_recipe_accepts_blank_ingredients {client : NodeOAuthClient} {platform : Platform}
    `{repository_client : RepositoryClient} {builtins : Builtins}
    (env : ProcessEnv) (req : Request) (s : Site) (agent : Agent) (w1 : World)
    (fields : list (string * FormValue)) (title : FormValue) (i st : string) :
  getSessionAgent env req (world s) = (Returns (Some agent), w1) →
  body req = Some fields →
  assoc "title" fields = Some title → truthy title = true →
  assoc "ingredients" fields = Some (FString i) → i ≠ EmptyString →
  assoc "steps" fields = Some (FString st) → st ≠ EmptyString →
  Forall (λ line, trim line = EmptyString) (split newline i) →
  ∃ input,
    repo_calls (exec (post_recipe env req) s) = repo_calls s ++ [RepoPutRecord input]
    ∧ new_ingredients (put_record input) = []
    ∧ sent (res (world (exec (post_recipe env req) s))) = sent (res w1).
Proof.
  intros Hagent Hbody Htitle Htruthy Hingredients Hi Hsteps Hst Hblank.
  eexists. unfold exec.
  rewrite (post_recipe_writes env req s agent w1 fields title i st) by done.
  unfold mbind, async_bind, repository. cbn [world db repo_calls].
  split_and!.
  - by destruct (agent_putRecord agent _ (db w1)) as [[[]|e] d0].
  - cbn [put_record new_ingredients].
    induction Hblank as [|line lines Hline _ IH]; [done|].
    rewrite filter_cons_False by (intros Hnot; by apply Hnot). exact IH.
  - by destruct (agent_putRecord agent _ (db w1)) as [[[]|e] d0].
Qed.

Lemma post_recipe_accepts_blank_ingredients_witness :
  ∃ input,
    repo_calls (exec (@post_recipe demo_client plain_platform nat_numbers demo_repository
                        demo_builtins no_env blank_recipe_request) (visit sample_db))
    = [RepoPutRecord input]
    ∧ new_ingredients (put_record input) = [].
Proof.
  assert (" " ≠ EmptyString) as Hi by discriminate.
  assert ("Bake" ≠ EmptyString) as Hst by discriminate.
  assert (Forall (λ line, @trim demo_builtins line = EmptyString) (split newline " "))
    as Hblank by (repeat constructor).
  destruct (@post_recipe_accepts_blank_ingredients demo_client plain_platform nat_numbers
              demo_repository demo_builtins no_env blank_recipe_request (visit sample_db)
              demo_agent (with_call (CallRestore "did:plc:abc123") (arrive sample_db))
              _ (FString "Bread") " " "Bake" eq_refl eq_refl eq_refl eq_refl eq_refl Hi
              eq_refl Hst Hblank)
    as (input & Hcalls & Hempty & _).
  exists input. split; [exact Hcalls | exact Hempty].
Defined.

(** X21. [POST /recipe] throws a [TypeError] before any repository call,
    and sends nothing, when the request has no parsed body, and when the
    ingredients pass the check without being a string (an array or an
    object from [ingredients[]=..]), which has no [split]. *)
Theorem post_recipe_throws_on_non_string {client : NodeOAuthClient} {platform : Platform}
    `{repository_client : RepositoryClient} {builtins : Builtins}
    (env : ProcessEnv) (req : Request) (s : Site) (agent : Agent) (w1 : World) :
  getSessionAgent env req (world s) = (Returns (Some agent), w1) →
  let untouched := {| world := w1; repo_calls := repo_calls s |} in
  (body req = None → ∃ message, post_recipe env req s = (Throws (TypeError message), untouched))
  ∧ (∀ fields title ingredients steps,
       body req = Some fields →
       assoc "title" fields = Some title → truthy title = true →
       assoc "ingredients" fields = Some ingredients → truthy ingredients = true →
       (∀ i, ingredients ≠ FString i) →
       assoc "steps" fields = Some steps → truthy steps = true →
       ∃ message, post_recipe env req s = (Throws (TypeError message), untouched)).
Proof.
  intros Hagent untouched.
  rewrite (post_recipe_with_agent env req s agent w1 Hagent). split.
  - intros ->. eauto.
  - intros fields title ingredients steps -> -> Htitle -> Hingredients Hnot -> Hsteps.
    cbn [default from_option id]. rewrite Htitle, Hingredients, Hsteps. cbn [negb orb].
    unfold mbind, async_bind, await.
    destruct ingredients as [|i| |]; try done; cbn; eauto.
    by destruct (Hnot i).
Qed.

Lemma post_recipe_throws_on_non_string_witness :
  ∃ message,
    @post_recipe demo_client plain_platform nat_numbers demo_repository demo_builtins
      no_env array_recipe_request (visit sample_db)
    = (Throws (TypeError message),
       {| world := with_call (CallRestore "did:plc:abc123") (arrive sample_db);
          repo_calls := [] |}).
Proof.
  pose proof (@post_recipe_throws_on_non_string demo_client plain_platform nat_numbers
                demo_repository demo_builtins no_env array_recipe_request (visit sample_db)
                demo_agent (with_call (CallRestore "did:plc:abc123") (arrive sample_db))
                eq_refl) as [_ Harray].
  apply (Harray _ (FString "Bread") (FArray [FString "flour"]) (FString "Bake")
           eq_refl eq_refl eq_refl eq_refl eq_refl);
    [intros i; discriminate | reflexivity | reflexivity].
Defined.

(** X22. The routes behind the login do not catch what the repository
    throws: when [agent.post], [listRecords] or [getProfile] throws,
    [POST /post], [GET /recipes] and [GET /] throw the same error and the
    response is left as [getSessionAgent] left it, with nothing sent. *)
Theorem repository_failures_escape {client : NodeOAuthClient} {platform : Platform}
    `{repository_client : RepositoryClient}
    (env : ProcessEnv) (req : Request) (s : Site) (agent : Agent) (w1 : World)
    (e : Thrown) (d' : Database) :
  getSessionAgent env req (world s) = (Returns (Some agent), w1) →
  let left_by (c : RepoCall) :=
    {| world := with_db (λ _, d') w1; repo_calls := repo_calls s ++ [c] |} in
  (truthy (body_field "text" req) = true →
   agent_post agent (body_field "text" req) (db w1) = (Throws e, d') →
   post_post env req s = (Throws e, left_by (RepoPost (body_field "text" req))))
  ∧ (agent_listRecords agent (assertDid agent) RECIPE_COLLECTION 20 (db w1) = (Throws e, d') →
     get_recipes env req s
     = (Throws e, left_by (RepoListRecords (assertDid agent) RECIPE_COLLECTION 20)))
  ∧ (agent_getProfile agent (assertDid agent) (db w1) = (Throws e, d') →
     get_home env req s = (Throws e, left_by (RepoGetProfile (assertDid agent)))).
Proof.
  intros Hagent left_by. split_and!.
  - intros Htruthy Hpost. rewrite (post_post_with_agent env req s agent w1 Hagent), Htruthy.
    cbn [negb]. unfold mbind, async_bind, repository. cbn [world db repo_calls].
    by rewrite Hpost.
  - intros Hlist. rewrite (get_recipes_with_agent env req s agent w1 Hagent).
    unfold mbind, async_bind, repository. cbn [world db repo_calls]. by rewrite Hlist.
  - intros Hprofile. rewrite (get_home_with_agent env req s agent w1 Hagent).
    unfold mbind at 1. unfold async_bind at 1. unfold repository. cbn [world db repo_calls].
    by rewrite Hprofile.
Qed.

Lemma repository_failures_escape_witness :
  @post_post demo_client plain_platform nat_numbers unreachable_repository no_env
    post_request (visit sample_db)
  = (Throws InfrastructureError,
     {| world := with_call (CallRestore "did:plc:abc123") (arrive sample_db);
        repo_calls := [RepoPost (FString "hello")] |}).
Proof.
  pose proof (@repository_failures_escape demo_client plain_platform nat_numbers
                unreachable_repository no_env post_request (visit sample_db) demo_agent
                (with_call (CallRestore "did:plc:abc123") (arrive sample_db))
                InfrastructureError sample_db eq_refl) as [Hpost _].
  apply (Hpost eq_refl eq_refl).
Defined.
